(** * JSON-Schema handler of graphql-mesh: operations, resolvers, config loader

    A shallow embedding of
    - [packages/cli/src/config.ts] (the [customLoader] placeholder
      substitution), and
    - the JSON-Schema loader ([JSONSchemaLoader], [getOperationMetadata],
      [isPubSubOperationConfig], [buildFinalJSONSchema],
      [addExecutionLogicToComposer]),
    followed by the properties of these functions.

    Conventions of the embedding.
    - A JavaScript string is a [string]: a sequence of code units below 256
      (the Latin-1 range of UTF-16).
    - A JSON number is an integer ([Z]).
    - A JavaScript object is an association list in insertion order; a
      property write replaces the value in place or appends the key.
    - [throw] and promise rejection are the left injection of a sum.
    - Debug logging is purely observational and is left out. *)

From Stdlib Require Import ZArith Ascii.
From stdpp Require Import base option list strings pretty gmap.

Local Open Scope Z_scope.

(* ===================================================================== *)
(** * JavaScript values and strings *)
(* ===================================================================== *)

Module Js.

(** JSON values, plus [undefined]. *)
#[warnings="-register-all"]
Inductive value : Type :=
| VUndefined
| VNull
| VBool (b : bool)
| VNum (n : Z)
| VStr (s : string)
| VArr (items : list value)
| VObj (props : list (string * value)).

(** What a resolver hands back besides plain data: an [Error] object built
    by [new Error(message)] with [stack = null] and then
    [Object.assign(errorObj, assigned)], or an [AggregateError]. *)
#[warnings="-register-all"]
Inductive jsresult : Type :=
| Plain (v : value)
| ErrorObj (message : string) (assigned : value)
| AggregateError (errors : list jsresult) (message : string).

(** [new Error(message)]. *)
Definition Error (message : string) : jsresult := ErrorObj message VUndefined.

(** What a [throw] (or a rejected promise) carries: a thrown value, a
    [TypeError] of the runtime, or the failure of an external collaborator
    with its message. *)
Inductive thrown : Type :=
| Thrown (v : jsresult)
| TypeError (what : string)
| Rejected (message : string).

(** Code that may throw. *)
Definition result (A : Type) : Type := thrown + A.

#[export] Instance result_ret : MRet result := fun A x => inr x.
#[export] Instance result_bind : MBind result := fun A B f m =>
  match m with
  | inl e => inl e
  | inr a => f a
  end.

#[export] Instance result_fmap : FMap result := fun A B f m =>
  match m with
  | inl e => inl e
  | inr a => inr (f a)
  end.

Definition throw {A} (e : thrown) : result A := inl e.

(** ToBoolean. *)
Definition truthy (v : value) : bool :=
  match v with
  | VUndefined | VNull => false
  | VBool b => b
  | VNum n => negb (n =? 0)
  | VStr s => negb (String.eqb s EmptyString)
  | VArr _ | VObj _ => true
  end.

(** [o || d] on an optional string: [undefined] and the empty string are
    falsy. *)
Definition str_or (o : option string) (d : string) : string :=
  match o with
  | Some s => if String.eqb s EmptyString then d else s
  | None => d
  end.

(** Truthiness of an optional property. *)
Definition truthy_opt (o : option value) : bool :=
  match o with Some v => truthy v | None => false end.

Definition truthy_str (o : option string) : bool :=
  match o with Some s => negb (String.eqb s EmptyString) | None => false end.

(** ** Objects as association lists *)

Fixpoint obj_get {A} (k : string) (o : list (string * A)) : option A :=
  match o with
  | [] => None
  | (k', v) :: r => if String.eqb k' k then Some v else obj_get k r
  end.

(** [o[k] = v]: in place when the key exists, appended otherwise. *)
Fixpoint obj_set {A} (k : string) (v : A) (o : list (string * A))
  : list (string * A) :=
  match o with
  | [] => [(k, v)]
  | (k', v') :: r =>
      if String.eqb k' k then (k, v) :: r else (k', v') :: obj_set k v r
  end.

(** [{...a, ...b}]. *)
Definition obj_spread {A} (a b : list (string * A)) : list (string * A) :=
  fold_left (fun acc kv => obj_set kv.1 kv.2 acc) b a.

(** [k in o]. *)
Definition obj_has {A} (k : string) (o : list (string * A)) : bool :=
  existsb (fun kv => String.eqb kv.1 k) o.

(** Property read [v.k] for the property names the loader reads
    ([errors], [_errors], [error], [length], [input]): reading from [null]
    or [undefined] throws; strings and arrays have a [length]. *)
Definition get (v : value) (k : string) : result value :=
  match v with
  | VUndefined | VNull => inl (TypeError ("Cannot read properties: " +:+ k))
  | VObj props => inr (default VUndefined (obj_get k props))
  | VStr s =>
      inr (if String.eqb k "length" then VNum (Z.of_nat (String.length s))
           else VUndefined)
  | VArr l =>
      inr (if String.eqb k "length" then VNum (Z.of_nat (length l))
           else VUndefined)
  | VBool _ | VNum _ => inr VUndefined
  end.

(** ** String methods *)

Definition lower_char (c : ascii) : ascii :=
  let n := N_of_ascii c in
  if ((65 <=? n) && (n <=? 90))%N then ascii_of_N (n + 32)
  else if ((192 <=? n) && (n <=? 222) && negb (n =? 215))%N
       then ascii_of_N (n + 32)
  else c.

(** [s.toLowerCase()]. *)
Fixpoint toLowerCase (s : string) : string :=
  match s with
  | EmptyString => EmptyString
  | String c r => String (lower_char c) (toLowerCase r)
  end.

(** [s.startsWith(p)]. *)
Definition startsWith (s p : string) : bool := String.prefix p s.

(** [s.includes(c)] for a one-character needle. *)
Fixpoint includes (s : string) (c : ascii) : bool :=
  match s with
  | EmptyString => false
  | String c' r => Ascii.eqb c' c || includes r c
  end.

(** [s.split(c)] for a one-character separator. *)
Fixpoint split (s : string) (c : ascii) : list string :=
  match s with
  | EmptyString => [EmptyString]
  | String c' r =>
      if Ascii.eqb c' c then EmptyString :: split r c
      else match split r c with
           | h :: t => String c' h :: t
           | [] => [String c' EmptyString]
           end
  end.

(** [l.join(c)]. *)
Definition join (l : list string) (c : ascii) : string :=
  String.concat (String c EmptyString) l.

(** Line terminators, which [.] of a regular expression does not match
    (line feed and carriage return; the other two are above 255). *)
Definition line_terminator (c : ascii) : bool :=
  Ascii.eqb c "010"%char || Ascii.eqb c "013"%char.

End Js.

(* ===================================================================== *)
(** * [packages/cli/src/config.ts]: placeholder substitution *)
(* ===================================================================== *)

Module Config.
Import Js.

(** The match of [(.*?)\}] at the head of [s]: the captured group and the
    text after the closing brace.  The group is lazy, so it ends at the
    first closing brace; it cannot cross a line terminator. *)
Fixpoint capture (s : string) : option (string * string) :=
  match s with
  | EmptyString => None
  | String c r =>
      if Ascii.eqb c "}"%char then Some (EmptyString, r)
      else if line_terminator c then None
      else match capture r with
           | Some (v, rest) => Some (String c v, rest)
           | None => None
           end
  end.

(** [content.replace(/\$\{(.*?)\}/g, (_, variable) => f variable)]: each
    match, found left to right, is replaced by [f] of its group; the text
    between matches is copied.  [fuel] bounds the number of steps. *)
Fixpoint replace_from (fuel : nat) (f : string -> string) (s : string)
  : string :=
  match fuel with
  | O => s
  | S n =>
      match s with
      | EmptyString => EmptyString
      | String c r =>
          if Ascii.eqb c "$"%char then
            match r with
            | String c2 r2 =>
                if Ascii.eqb c2 "{"%char then
                  match capture r2 with
                  | Some (v, rest) => f v +:+ replace_from n f rest
                  | None => String c (replace_from n f r)
                  end
                else String c (replace_from n f r)
            | EmptyString => String c (replace_from n f r)
            end
          else String c (replace_from n f r)
      end
  end.

Definition replace (f : string -> string) (s : string) : string :=
  replace_from (String.length s) f s.

(** [process.env] is an object whose prototype is [Object.prototype]: a
    read [env[k]] of a name that is no environment variable finds what
    [Object.prototype] has under [k].  These are the names that
    [Object.prototype] carries functions under, besides [constructor] and
    [__proto__]. *)
Definition prototypeMethods : list string :=
  ["__defineGetter__"; "__defineSetter__"; "hasOwnProperty";
   "__lookupGetter__"; "__lookupSetter__"; "isPrototypeOf";
   "propertyIsEnumerable"; "toString"; "valueOf"; "toLocaleString"].

(** The text [replace] inserts for the value [Object.prototype[k]]: the
    source text of a native function, or that of the prototype object
    itself under [__proto__]; [None] when [Object.prototype] has no
    property [k]. *)
Definition inherited (k : string) : option string :=
  if String.eqb k "__proto__" then Some "[object Object]"
  else if String.eqb k "constructor"
       then Some "function Object() { [native code] }"
  else if existsb (String.eqb k) prototypeMethods
       then Some ("function " +:+ k +:+ "() { [native code] }")
  else None.

(** [env[k] || d], as the text [replace] inserts.  [env k] is the
    environment variable [k], [None] when there is none; a variable set to
    the empty string is falsy, and a name without a variable reads what
    [process.env] inherits. *)
Definition read_or (env : string -> option string) (k d : string) : string :=
  match env k with
  | Some v => if String.eqb v EmptyString then d else v
  | None =>
      match inherited k with
      | Some text => text
      | None => d
      end
  end.

(** The replacement callback of [customLoader]; [shift] on an empty array
    would yield [undefined], but [split] never returns one. *)
Definition substitute (env : string -> option string) (variable : string)
  : string :=
  let '(varName, defaultValue) :=
    if includes variable ":"%char then
      match split variable ":"%char with
      | first :: spl => (first, join spl ":"%char)
      | [] => ("undefined", join [] ":"%char)
      end
    else (variable, EmptyString) in
  read_or env varName defaultValue.

(** The text that [loader] hands to the format-specific loader. *)
Definition loader_content (env : string -> option string) (content : string)
  : string :=
  replace (substitute env) content.

(** A placeholder body: no closing brace and no line terminator. *)
Fixpoint placeholder_text (s : string) : bool :=
  match s with
  | EmptyString => true
  | String c r =>
      negb (Ascii.eqb c "}"%char) && negb (line_terminator c)
      && placeholder_text r
  end.

End Config.

(* ===================================================================== *)
(** * The JSON-Schema loader: data model *)
(* ===================================================================== *)

(** [JSONSchemaOperationConfig]: the union of the HTTP and the pubsub
    interfaces, as the object a configuration file yields.  An optional
    property that is absent is [None]; [otherProps] holds the properties
    the interfaces do not declare. *)
Module OperationConfig.
Import Js.

Record t : Type := {
  type : string;
  field : string;
  description : option string;
  requestSchema : option value;
  requestSample : option value;
  requestTypeName : option string;
  responseSchema : option value;
  responseSample : option value;
  responseTypeName : option string;
  path : option string;
  method : option string;
  headers : option (list (string * string));
  pubsubTopic : option string;
  otherProps : list (string * value)
}.

Definition present {A} (k : string) (o : option A) : list string :=
  match o with Some _ => [k] | None => [] end.

(** The property names of the object. *)
Definition keys (c : t) : list string :=
  ["type"; "field"]
  ++ present "description" (description c)
  ++ present "requestSchema" (requestSchema c)
  ++ present "requestSample" (requestSample c)
  ++ present "requestTypeName" (requestTypeName c)
  ++ present "responseSchema" (responseSchema c)
  ++ present "responseSample" (responseSample c)
  ++ present "responseTypeName" (responseTypeName c)
  ++ present "path" (path c)
  ++ present "method" (method c)
  ++ present "headers" (headers c)
  ++ present "pubsubTopic" (pubsubTopic c)
  ++ (otherProps c).*1.

(** [k in operationConfig]. *)
Definition has (k : string) (c : t) : bool :=
  existsb (String.eqb k) (keys c).

(** Copies of a configuration with one property set. *)
Definition with_path (p : string) (c : t) : t :=
  let 'Build_t a b d e f g h i j _ l m n o := c in
  Build_t a b d e f g h i j (Some p) l m n o.

Definition with_method (x : string) (c : t) : t :=
  let 'Build_t a b d e f g h i j k _ m n o := c in
  Build_t a b d e f g h i j k (Some x) m n o.

Definition with_headers (x : list (string * string)) (c : t) : t :=
  let 'Build_t a b d e f g h i j k l _ n o := c in
  Build_t a b d e f g h i j k l (Some x) n o.

Definition with_pubsubTopic (x : string) (c : t) : t :=
  let 'Build_t a b d e f g h i j k l m _ o := c in
  Build_t a b d e f g h i j k l m (Some x) o.

Definition with_otherProps (x : list (string * value)) (c : t) : t :=
  let 'Build_t a b d e f g h i j k l m n _ := c in
  Build_t a b d e f g h i j k l m n x.

Definition with_requestSchema (x : value) (c : t) : t :=
  let 'Build_t a b d _ f g h i j k l m n o := c in
  Build_t a b d (Some x) f g h i j k l m n o.

Definition with_requestSample (x : value) (c : t) : t :=
  let 'Build_t a b d e _ g h i j k l m n o := c in
  Build_t a b d e (Some x) g h i j k l m n o.

Definition with_responseSchema (x : value) (c : t) : t :=
  let 'Build_t a b d e f g _ i j k l m n o := c in
  Build_t a b d e f g (Some x) i j k l m n o.

Definition with_responseSample (x : value) (c : t) : t :=
  let 'Build_t a b d e f g h _ j k l m n o := c in
  Build_t a b d e f g h (Some x) j k l m n o.

End OperationConfig.

(** [RequestInit] of the fetch call.  The body is kept as the serializer
    applied to the input: [qsStringify] (package qs) or [jsonFlatStringify]
    (mesh utils). *)
Module RequestInit.
Import Js.

Inductive Body : Type :=
| qsStringify (input : value)
| jsonFlatStringify (input : value).

Record t : Type := {
  method : option string;
  headers : list (string * string);
  body : option Body
}.

Definition with_body (b : Body) (r : t) : t :=
  {| method := method r; headers := headers r; body := Some b |}.

End RequestInit.

(** A parsed [URL]: its serialisation without the query, and the query as
    the list of name-value pairs behind [searchParams]. *)
Module URL.

Record t : Type := {
  href : string;
  searchParams : list (string * string)
}.

(** [searchParams.set(name, value)]: the first pair of that name takes the
    value and the other pairs of that name are removed; the pair is
    appended when there is none. *)
Fixpoint set (name value : string) (l : list (string * string))
  : list (string * string) :=
  match l with
  | [] => [(name, value)]
  | (n, v) :: r =>
      if String.eqb n name
      then (name, value) :: List.filter (fun p => negb (String.eqb p.1 name)) r
      else (n, v) :: set name value r
  end.

Definition with_searchParams (l : list (string * string)) (u : t) : t :=
  {| href := href u; searchParams := l |}.

(** The pairs of a query that carry the name [k]. *)
Definition named (k : string) (l : list (string * string))
  : list (string * string) :=
  List.filter (fun p => String.eqb p.1 k) l.

(** The value the last pair named [k] carries. *)
Fixpoint lastValue (k : string) (l : list (string * string))
  : option string :=
  match l with
  | [] => None
  | (n, v) :: r =>
      match lastValue k r with
      | Some v' => Some v'
      | None => if String.eqb n k then Some v else None
      end
  end.

End URL.

(** The part of [JSONSchemaLoaderOptions] the loader reads. *)
Module Options.

(** A pubsub subsystem; what its [asyncIterator(topic)] returns is
    [Loader.asyncIterator topic]. *)
Inductive MeshPubSub : Type := meshPubSub.

Record t : Type := {
  baseUrl : option string;
  operationHeaders : option (list (string * string));
  operations : list OperationConfig.t;
  errorMessage : option string;
  cwd : option string;
  pubsub : option MeshPubSub
}.

End Options.

Module Loader.
Import Js.

Inductive RootTypeName : Type := Query | Mutation | Subscription.

Definition RootTypeName_string (r : RootTypeName) : string :=
  match r with
  | Query => "Query"
  | Mutation => "Mutation"
  | Subscription => "Subscription"
  end.

(** The record [getOperationMetadata] returns; [httpMethod] is [null] for
    a pubsub operation. *)
Record OperationMetadata : Type := {
  httpMethod : option string;
  operationType : string;
  rootTypeName : RootTypeName;
  fieldName : string
}.

(** [field.type] of a field got from a type composer of graphql-compose
    ([rootTypeComposer.getField(fieldName)]): itself a composer, with the
    names of its fields where it has fields. *)
Inductive ComposeOutputType : Type :=
| ScalarTypeComposer (name : string)
| EnumTypeComposer (name : string)
| ObjectTypeComposer (name : string) (fields : list string)
| InterfaceTypeComposer (name : string) (fields : list string)
| UnionTypeComposer (name : string)
| ListComposer (ofType : ComposeOutputType)
| NonNullComposer (ofType : ComposeOutputType).

(** The names of [getFields()], [None] for a composer without that
    method. *)
Definition getFields (t : ComposeOutputType) : option (list string) :=
  match t with
  | ObjectTypeComposer _ fields | InterfaceTypeComposer _ fields => Some fields
  | _ => None
  end.

(** What the predicates of graphql-js may be handed: one of its own named
    types, or a composer of graphql-compose. *)
Inductive TypeValue : Type :=
| GraphQLScalarType (name : string)
| GraphQLObjectType (name : string) (fields : list string)
| Composer (t : ComposeOutputType).

(** [isScalarType(type)] of graphql-js: [type instanceof
    GraphQLScalarType]. *)
Definition isScalarType (type : TypeValue) : bool :=
  match type with
  | GraphQLScalarType _ => true
  | _ => false
  end.

(** The iterator [options.pubsub.asyncIterator(topic)] returns. *)
Inductive AsyncIterator : Type :=
| asyncIterator (topic : string).

(** One root definition of the composite schema:
    [{ type: 'object', title, properties }]. *)
Record RootDefinition : Type := {
  title : string;
  properties : gmap string value
}.

(** Calls of the synthesizer to its collaborators, in order. *)
Inductive event : Type :=
| ReadFileOrUrl (pointer : value)
| ToJsonSchema (sample : value)
| DereferenceObject
| HealJSONSchema
| ReferenceJSONSchema.

(** The collaborators of the loader that are not part of it: the string
    interpolator and the file reader of the mesh utilities, the json-machete
    pipeline, the union-input resolution, the packages [url-join] and
    [to-json-schema], and the runtime ([URL], [URLSearchParams], [fetch],
    [JSON.parse], [ToString]).

    - [stringInterpolator_parse]: its template may be [undefined].
    - [URL_new]: [None] when the constructor throws.
    - [URLSearchParams_new]: the constructor on an initialiser that is not
      a plain object.
    - [resolveDataByUnionInputType]: on [args.input], for the input type of
      the field at hand.
    - [fetch]: the response text for a URL and a [RequestInit].
    - [JSON_parse]: [None] when parsing throws.
    - [readFileOrUrl]: the content, or the message of the rejection. *)
Record Platform : Type := {
  stringInterpolator_parse : option string -> value -> string;
  urlJoin : string -> string -> string;
  URL_new : string -> option URL.t;
  URLSearchParams_new : value -> result (list (string * string));
  ToString : value -> string;
  resolveDataByUnionInputType : value -> value;
  fetch : URL.t -> RequestInit.t -> result string;
  JSON_parse : string -> option value;
  readFileOrUrl : value -> string + value;
  toJsonSchema : value -> list (string * value);
  dereferenceObject : gmap string RootDefinition -> result value;
  healJSONSchema : value -> result value;
  referenceJSONSchema : value -> result value
}.

(** ** Operation classification and metadata *)

Definition isPubSubOperationConfig (operationConfig : OperationConfig.t)
  : bool :=
  OperationConfig.has "pubSubTopic" operationConfig.

Definition getOperationMetadata (operationConfig : OperationConfig.t)
  : OperationMetadata :=
  if isPubSubOperationConfig operationConfig then
    {| httpMethod := None;
       operationType := "subscription";
       rootTypeName := Subscription;
       fieldName := OperationConfig.field operationConfig |}
  else
    let httpMethod0 := OperationConfig.method operationConfig in
    let operationType := toLowerCase (OperationConfig.type operationConfig) in
    let httpMethod1 :=
      if negb (truthy_str httpMethod0) then
        if String.eqb operationType "mutation" then Some "POST"
        else Some "GET"
      else httpMethod0 in
    let rootTypeName0 : option RootTypeName := None in
    let rootTypeName1 :=
      if negb (bool_decide (is_Some rootTypeName0)) then
        if bool_decide (httpMethod1 = Some "GET") then Some Query
        else rootTypeName0
      else rootTypeName0 in
    let rootTypeName2 :=
      if String.eqb operationType "query" then Query else Mutation in
    {| httpMethod := httpMethod1;
       operationType := operationType;
       rootTypeName := rootTypeName2;
       fieldName := OperationConfig.field operationConfig |}.

(** ** The execution binder: [addExecutionLogicToComposer] *)

Section Execution.

Context (P : Platform) (options : Options.t).
Context (operationConfig : OperationConfig.t).
(** [field.type] of the field the operation is bound to. *)
Context (returnType : ComposeOutputType).
(** [process.env], as the value put under [env] in the interpolation data. *)
Context (env : value).

Definition interpolationData (root args context info : value) : value :=
  VObj [("root", root); ("args", args); ("context", context);
        ("info", info); ("env", env)].

(** [`${rootTypeName}.${fieldName}`]. *)
Definition qualifiedName : string :=
  let md := getOperationMetadata operationConfig in
  RootTypeName_string (rootTypeName md) +:+ "." +:+ fieldName md.

(** *** Pubsub binding *)

(** [field.subscribe]: the topic is interpolated, then
    [options.pubsub.asyncIterator] is called, which throws when
    [options.pubsub] is [undefined]. *)
Definition pubsub_subscribe (root args context info : value)
  : result AsyncIterator :=
  let interpolationData := interpolationData root args context info in
  let pubsubTopic :=
    stringInterpolator_parse P (OperationConfig.pubsubTopic operationConfig)
      interpolationData in
  match Options.pubsub options with
  | Some _ => mret (asyncIterator pubsubTopic)
  | None =>
      throw (TypeError "Cannot read properties of undefined: asyncIterator")
  end.

Definition pubsub_resolve (root : value) : value := root.

(** *** HTTP binding: the request *)

(** [{...options.operationHeaders, ...operationConfig?.headers}], each
    value then interpolated in place. *)
Definition requestHeaders (interpolationData : value)
  : list (string * string) :=
  let headers :=
    obj_spread (default [] (Options.operationHeaders options))
               (default [] (OperationConfig.headers operationConfig)) in
  map (fun kv => (kv.1, stringInterpolator_parse P (Some kv.2)
                          interpolationData)) headers.

(** [new URLSearchParams(input)]: a plain object gives one pair per
    property, the value converted to a string. *)
Definition newURLSearchParams (input : value)
  : result (list (string * string)) :=
  match input with
  | VObj props => mret (map (fun kv => (kv.1, ToString P kv.2)) props)
  | _ => URLSearchParams_new P input
  end.

(** The [forEach] that writes each new pair into [urlObj.searchParams]. *)
Definition writeSearchParams (newParams old : list (string * string))
  : list (string * string) :=
  fold_left (fun acc kv => URL.set kv.1 kv.2 acc) newParams old.

(** The value of the first header whose name lower-cases to
    [content-type]; [None] is [undefined]. *)
Definition findContentType (headers : list (string * string))
  : option string :=
  snd <$> List.find
            (fun kv => String.eqb (toLowerCase kv.1) "content-type") headers.

Definition bodyless : list string :=
  ["GET"; "HEAD"; "CONNECT"; "OPTIONS"; "TRACE"].

Definition bodied : list string :=
  ["POST"; "PUT"; "PATCH"; "DELETE"].

Definition is_in (m : string) (l : list string) : bool :=
  existsb (String.eqb m) l.

(** The [switch (httpMethod)] under [if (input)]. *)
Definition applyInput (httpMethod : option string) (input : value)
    (urlObj : URL.t) (requestInit : RequestInit.t)
  : result (URL.t * RequestInit.t) :=
  match httpMethod with
  | Some m =>
      if is_in m bodyless then
        newSearchParams ← newURLSearchParams input;
        mret (URL.with_searchParams
                (writeSearchParams newSearchParams (URL.searchParams urlObj))
                urlObj,
              requestInit)
      else if is_in m bodied then
        let contentType := findContentType (RequestInit.headers requestInit) in
        match contentType with
        | Some ct =>
            if startsWith ct "application/x-www-form-urlencoded"
            then mret (urlObj,
                       RequestInit.with_body
                         (RequestInit.qsStringify input) requestInit)
            else mret (urlObj,
                       RequestInit.with_body
                         (RequestInit.jsonFlatStringify input) requestInit)
        | None =>
            mret (urlObj,
                  RequestInit.with_body
                    (RequestInit.jsonFlatStringify input) requestInit)
        end
      else throw (Thrown (Error ("Unknown method " +:+ m)))
  | None => throw (Thrown (Error "Unknown method null"))
  end.

(** The URL the resolver parses. *)
Definition fullPath (root args context info : value) : string :=
  let interpolationData := interpolationData root args context info in
  let interpolatedBaseUrl :=
    stringInterpolator_parse P (Options.baseUrl options) interpolationData in
  let interpolatedPath :=
    stringInterpolator_parse P (OperationConfig.path operationConfig)
      interpolationData in
  urlJoin P interpolatedBaseUrl interpolatedPath.

(** [requestInit] before the input is looked at. *)
Definition initialRequest (root args context info : value) : RequestInit.t :=
  {| RequestInit.method := httpMethod (getOperationMetadata operationConfig);
     RequestInit.headers :=
       requestHeaders (interpolationData root args context info);
     RequestInit.body := None |}.

(** Everything [resolve] does before it calls [fetch]: the URL and the
    [RequestInit] it fetches with. *)
Definition prepareRequest (root args context info : value)
  : result (URL.t * RequestInit.t) :=
  let httpMethod := httpMethod (getOperationMetadata operationConfig) in
  let requestInit := initialRequest root args context info in
  match URL_new P (fullPath root args context info) with
  | None => throw (TypeError "Invalid URL")
  | Some urlObj =>
      argsInput ← get args "input";
      let input := resolveDataByUnionInputType P argsInput in
      if truthy input then applyInput httpMethod input urlObj requestInit
      else mret (urlObj, requestInit)
  end.

(** *** HTTP binding: the response *)

Definition errorMessageTemplate : string :=
  str_or (Options.errorMessage options) "message".

(** [typeof error === 'object']. *)
Definition typeof_object (v : value) : bool :=
  match v with
  | VNull | VArr _ | VObj _ => true
  | _ => false
  end.

Definition normalizeError (error : value) : jsresult :=
  let errorMessage :=
    stringInterpolator_parse P (Some errorMessageTemplate) error in
  if typeof_object error && negb (String.eqb errorMessage EmptyString)
  then ErrorObj errorMessage error
  else Plain error.

(** ['getFields' in returnType && name in returnType.getFields()]. *)
Definition declaresField (name : string) : bool :=
  match getFields returnType with
  | Some fields => existsb (String.eqb name) fields
  | None => false
  end.

(** [errors?.length]. *)
Definition optLength (errors : value) : result value :=
  match errors with
  | VUndefined | VNull => mret VUndefined
  | _ => get errors "length"
  end.

(** [errors.map(normalizeError)]: only an array has [map]. *)
Definition mapErrors (errors : value) : result (list jsresult) :=
  match errors with
  | VArr items => mret (map normalizeError items)
  | _ => throw (TypeError "errors.map is not a function")
  end.

(** The code from [if (responseJson.error)] on. *)
Definition singularError (responseJson : value) : result jsresult :=
  error ← get responseJson "error";
  if truthy error && negb (declaresField "error")
  then mret (normalizeError error)
  else mret (Plain responseJson).

(** The code after a successful [JSON.parse]. *)
Definition handleJson (responseJson : value) : result jsresult :=
  errors0 ← get responseJson "errors";
  errors ← (if truthy errors0 then mret errors0
            else get responseJson "_errors");
  len ← optLength errors;
  aggregated ←
    (if truthy len then
       if negb (declaresField "errors") then
         normalized ← mapErrors errors;
         mret (Some (AggregateError normalized (qualifiedName +:+ " failed")))
       else mret None
     else mret None);
  match aggregated with
  | Some aggregatedError => mret aggregatedError
  | None => singularError responseJson
  end.

(** The code from [JSON.parse] on. *)
Definition handleResponse (responseText : string) : result jsresult :=
  match JSON_parse P responseText with
  | None =>
      if isScalarType (Composer returnType)
      then mret (Plain (VStr responseText))
      else throw (Thrown (Plain (VStr responseText)))
  | Some responseJson => handleJson responseJson
  end.

(** [field.resolve] of an HTTP operation. *)
Definition http_resolve (root args context info : value) : result jsresult :=
  request ← prepareRequest root args context info;
  responseText ← fetch P request.1 request.2;
  handleResponse responseText.

(** *** What the loop body attaches to the field *)

Inductive Binding : Type :=
| PubSubBinding
    (description : string)
    (subscribe : value -> value -> value -> value -> result AsyncIterator)
    (resolve : value -> value)
| HTTPBinding
    (description : string)
    (resolve : value -> value -> value -> value -> result jsresult)
| Unbound.

(** [field.description || d]. *)
Definition descriptionOr (fieldDescription : option string) (d : string)
  : string := str_or fieldDescription d.

Definition bindOperation (fieldDescription : option string) : Binding :=
  if isPubSubOperationConfig operationConfig then
    PubSubBinding
      (descriptionOr fieldDescription
         ("PubSub Topic: "
          +:+ default "undefined" (OperationConfig.pubsubTopic operationConfig)))
      pubsub_subscribe pubsub_resolve
  else if truthy_str (OperationConfig.path operationConfig) then
    HTTPBinding
      (descriptionOr fieldDescription
         (default "undefined" (OperationConfig.method operationConfig)
          +:+ " "
          +:+ default "undefined" (OperationConfig.path operationConfig)))
      http_resolve
  else Unbound.

End Execution.

(** ** The schema synthesizer: [buildFinalJSONSchema] *)

(** Code that awaits the collaborators: the events so far, and the value
    or what was thrown. *)
Definition Eff (A : Type) : Type := (list event * result A)%type.

#[export] Instance Eff_ret : MRet Eff := fun A x => ([], inr x).
#[export] Instance Eff_bind : MBind Eff := fun A B f m =>
  match m.2 with
  | inl e => (m.1, inl e)
  | inr a => ((m.1 ++ (f a).1)%list, (f a).2)
  end.

Definition emit (e : event) : Eff unit := ([e], inr tt).
Definition raise {A} (e : thrown) : Eff A := ([], inl e).
Definition lift {A} (r : result A) : Eff A := ([], r).

Section Synthesis.

Context (P : Platform).

(** A string-or-undefined property as a value. *)
Definition optStr (o : option string) : value :=
  match o with Some s => VStr s | None => VUndefined end.

(** [readFileOrUrl(sample, { cwd }).catch(e => { throw new Error(...) })];
    [describe] builds the message from [e.message]. *)
Definition readSample (describe : string -> string) (sample : value)
  : Eff value :=
  _ ← emit (ReadFileOrUrl sample);
  match readFileOrUrl P sample with
  | inl message => raise (Thrown (Error (describe message)))
  | inr content => mret content
  end.

(** [toJsonSchema(sample, {...})] followed by the assignment of the
    title. *)
Definition generateSchema (sample : value) (typeName : option string)
  : Eff value :=
  _ ← emit (ToJsonSchema sample);
  let generatedSchema := toJsonSchema P sample in
  mret (VObj (obj_set "title" (optStr typeName) generatedSchema)).

(** The value of an optional property when read: [undefined] if absent. *)
Definition read (o : option value) : value := default VUndefined o.

(** [{ type: 'object' }] with the title assigned. *)
Definition placeholderSchema (typeName : option string) : value :=
  VObj (obj_set "title" (optStr typeName) [("type", VStr "object")]).

(** The schema of the response side of one operation. *)
Definition responseSide (operationConfig : OperationConfig.t) : Eff value :=
  if truthy (read (OperationConfig.responseSchema operationConfig)) then
    mret (VObj [("$ref", read (OperationConfig.responseSchema operationConfig))])
  else if truthy (read (OperationConfig.responseSample operationConfig)) then
    sample ← readSample (fun message => "responseSample - " +:+ message)
               (read (OperationConfig.responseSample operationConfig));
    generateSchema sample (OperationConfig.responseTypeName operationConfig)
  else
    mret (placeholderSchema (OperationConfig.responseTypeName operationConfig)).

(** The schema of the request side, [None] when the operation declares
    neither a request schema nor a request sample. *)
Definition requestSide (operationConfig : OperationConfig.t)
  : Eff (option value) :=
  if truthy (read (OperationConfig.requestSchema operationConfig)) then
    mret (Some (VObj [("$ref",
                       read (OperationConfig.requestSchema operationConfig))]))
  else if truthy (read (OperationConfig.requestSample operationConfig)) then
    sample ← readSample
               (fun m =>
                  "requestSample:"
                  +:+ ToString P
                        (read (OperationConfig.requestSample operationConfig))
                  +:+ " cannot be read - " +:+ m)
               (read (OperationConfig.requestSample operationConfig));
    generated ← generateSchema sample
                  (OperationConfig.requestTypeName operationConfig);
    mret (Some generated)
  else mret None.

(** [properties[name] = properties[name] || { type: 'object', title,
    properties: {} }], read back. *)
Definition rootDefinition (name rootTitle : string)
    (finalProperties : gmap string RootDefinition) : RootDefinition :=
  default {| title := rootTitle; properties := ∅ |} (finalProperties !! name).

(** [definition.properties[fieldName] = schema], the definition being the
    one stored under [name]. *)
Definition setField (name rootTitle fieldName : string) (schema : value)
    (finalProperties : gmap string RootDefinition)
  : gmap string RootDefinition :=
  let definition := rootDefinition name rootTitle finalProperties in
  <[name := {| title := title definition;
               properties := <[fieldName := schema]> (properties definition) |}]>
    finalProperties.

(** The definition stored under [name] without a write to its fields. *)
Definition touch (name rootTitle : string)
    (finalProperties : gmap string RootDefinition)
  : gmap string RootDefinition :=
  <[name := rootDefinition name rootTitle finalProperties]> finalProperties.

(** The body of the loop over [options.operations]; the state is
    [finalJsonSchema.properties]. *)
Definition addOperation (finalProperties : gmap string RootDefinition)
    (operationConfig : OperationConfig.t)
  : Eff (gmap string RootDefinition) :=
  let md := getOperationMetadata operationConfig in
  let rootTitle := RootTypeName_string (rootTypeName md) in
  let finalProperties1 := touch (operationType md) rootTitle finalProperties in
  response ← responseSide operationConfig;
  let finalProperties2 :=
    setField (operationType md) rootTitle (fieldName md) response
      finalProperties1 in
  let rootTypeInputPropertyName := operationType md +:+ "Input" in
  let rootInputTypeName := rootTitle +:+ "Input" in
  let finalProperties3 :=
    touch rootTypeInputPropertyName rootInputTypeName finalProperties2 in
  request ← requestSide operationConfig;
  match request with
  | Some schema =>
      mret (setField rootTypeInputPropertyName rootInputTypeName
              (fieldName md) schema finalProperties3)
  | None => mret finalProperties3
  end.

(** The loop body again, with the object [finalJsonSchema.properties] as
    the body leaves it also when it throws: the body assigns into that
    object in place, so what it assigned before a throw is in the object
    although no composite schema is returned. *)
Record Run : Type := {
  run_events : list event;
  run_properties : gmap string RootDefinition;
  run_thrown : option thrown
}.

Definition runOperation (finalProperties : gmap string RootDefinition)
    (operationConfig : OperationConfig.t) : Run :=
  let md := getOperationMetadata operationConfig in
  let rootTitle := RootTypeName_string (rootTypeName md) in
  let finalProperties1 := touch (operationType md) rootTitle finalProperties in
  match responseSide operationConfig with
  | (events1, inl e) =>
      {| run_events := events1;
         run_properties := finalProperties1;
         run_thrown := Some e |}
  | (events1, inr response) =>
      let finalProperties2 :=
        setField (operationType md) rootTitle (fieldName md) response
          finalProperties1 in
      let rootTypeInputPropertyName := operationType md +:+ "Input" in
      let rootInputTypeName := rootTitle +:+ "Input" in
      let finalProperties3 :=
        touch rootTypeInputPropertyName rootInputTypeName finalProperties2 in
      match requestSide operationConfig with
      | (events2, inl e) =>
          {| run_events := events1 ++ events2;
             run_properties := finalProperties3;
             run_thrown := Some e |}
      | (events2, inr (Some schema)) =>
          {| run_events := events1 ++ events2;
             run_properties :=
               setField rootTypeInputPropertyName rootInputTypeName
                 (fieldName md) schema finalProperties3;
             run_thrown := None |}
      | (events2, inr None) =>
          {| run_events := events1 ++ events2;
             run_properties := finalProperties3;
             run_thrown := None |}
      end
  end.

(** What a run returns: what it threw, or the object. *)
Definition run_result (r : Run) : Eff (gmap string RootDefinition) :=
  (run_events r,
   match run_thrown r with
   | Some e => inl e
   | None => inr (run_properties r)
   end).

(** The loop. *)
Fixpoint addOperations (finalProperties : gmap string RootDefinition)
    (operations : list OperationConfig.t)
  : Eff (gmap string RootDefinition) :=
  match operations with
  | [] => mret finalProperties
  | operationConfig :: rest =>
      finalProperties' ← addOperation finalProperties operationConfig;
      addOperations finalProperties' rest
  end.

(** Dereference, heal, re-reference. *)
Definition pipeline (finalProperties : gmap string RootDefinition)
  : Eff value :=
  _ ← emit DereferenceObject;
  fullyDeferencedSchema ← lift (dereferenceObject P finalProperties);
  _ ← emit HealJSONSchema;
  healedSchema ← lift (healJSONSchema P fullyDeferencedSchema);
  _ ← emit ReferenceJSONSchema;
  lift (referenceJSONSchema P healedSchema).

(** [buildFinalJSONSchema]: the composite schema starts with no
    properties. *)
Definition buildFinalJSONSchema (options : Options.t) : Eff value :=
  finalProperties ← addOperations ∅ (Options.operations options);
  pipeline finalProperties.

End Synthesis.

(** ** Observations on the synthesizer *)

(** [properties[name].properties[fieldName]] of the composite schema. *)
Definition fieldSchema (name fieldName : string)
    (finalProperties : gmap string RootDefinition) : option value :=
  definition ← finalProperties !! name;
  properties definition !! fieldName.

(** The calls into the dereference, heal and re-reference pipeline, and
    the calls of sample inference. *)
Definition pipelineEvent (e : event) : bool :=
  match e with
  | DereferenceObject | HealJSONSchema | ReferenceJSONSchema => true
  | _ => false
  end.

Definition inferenceEvent (e : event) : bool :=
  match e with
  | ReadFileOrUrl _ | ToJsonSchema _ => true
  | _ => false
  end.

(** No event of a trace is a call into the pipeline. *)
Definition quiet (t : list event) : Prop :=
  Forall (fun e => pipelineEvent e = false) t.

(** The response sample of an operation is consulted and cannot be read,
    the reader failing with [message]; likewise for the request sample. *)
Definition responseSampleFails (P : Platform)
    (operationConfig : OperationConfig.t) (message : string) : Prop :=
  truthy (read (OperationConfig.responseSchema operationConfig)) = false
  ∧ truthy (read (OperationConfig.responseSample operationConfig)) = true
  ∧ readFileOrUrl P (read (OperationConfig.responseSample operationConfig))
    = inl message.

Definition requestSampleFails (P : Platform)
    (operationConfig : OperationConfig.t) (message : string) : Prop :=
  truthy (read (OperationConfig.requestSchema operationConfig)) = false
  ∧ truthy (read (OperationConfig.requestSample operationConfig)) = true
  ∧ readFileOrUrl P (read (OperationConfig.requestSample operationConfig))
    = inl message.

(** The messages of the two fatal errors. *)
Definition responseSampleError (message : string) : string :=
  "responseSample - " +:+ message.

Definition requestSampleError (P : Platform)
    (operationConfig : OperationConfig.t) (message : string) : string :=
  "requestSample:"
  +:+ ToString P (read (OperationConfig.requestSample operationConfig))
  +:+ " cannot be read - " +:+ message.

(** [message] is the message of the fatal error of an operation: that of
    its response sample, or that of its request sample. *)
Definition sampleError (P : Platform) (c : OperationConfig.t)
    (message : string) : Prop :=
  ∃ m, (responseSampleFails P c m ∧ message = responseSampleError m)
       ∨ (requestSampleFails P c m ∧ message = requestSampleError P c m).

End Loader.

(* ===================================================================== *)
(** * The strings handed to the argument planner, and the mesh handler *)
(* ===================================================================== *)

Module Planner.
Import Js Loader.

(** [Object.values(o)]. *)
Definition values {A} (o : list (string * A)) : list A := o.*2.

(** The array [interpolationStrings] that the loop body of
    [addExecutionLogicToComposer] hands to [parseInterpolationStrings];
    an entry is [None] when the property it is read from is absent. *)
Definition interpolationStrings (options : Options.t)
    (operationConfig : OperationConfig.t) : list (option string) :=
  let interpolationStrings0 :=
    (Some <$> values (default [] (Options.operationHeaders options)))
    ++ [Options.baseUrl options] in
  if isPubSubOperationConfig operationConfig then
    interpolationStrings0 ++ [OperationConfig.pubsubTopic operationConfig]
  else if truthy_str (OperationConfig.path operationConfig) then
    (interpolationStrings0
     ++ (Some <$> values (default [] (OperationConfig.headers operationConfig))))
    ++ [OperationConfig.path operationConfig]
  else interpolationStrings0.

(** A copy of a configuration with another declared type. *)
Definition with_type (x : string) (c : OperationConfig.t)
  : OperationConfig.t :=
  let 'OperationConfig.Build_t _ b d e f g h i j k l m n o := c in
  OperationConfig.Build_t x b d e f g h i j k l m n o.

(** The two roots of the composite schema an operation writes to. *)
Definition rootNames (c : OperationConfig.t) : gset string :=
  {[ operationType (getOperationMetadata c);
     operationType (getOperationMetadata c) +:+ "Input" ]}.

End Planner.

(** [packages/handlers/json-schema/src/index.ts]. *)
Module Handler.
Import Js Loader.

(** The part of [YamlConfig.JsonSchemaHandler] that [getMeshSource]
    reads. *)
Record Config : Type := {
  baseUrl : option string;
  operationHeaders : option (list (string * string));
  schemaHeaders : option (list (string * string));
  operations : list OperationConfig.t;
  disableTimestampScalar : option bool;
  errorMessage : option string
}.

(** The pubsub subsystem the handler is constructed with. *)
Abbreviation MeshPubSub := Options.MeshPubSub.

(** [JSONSchemaLoaderOptions] with the optional properties that
    [Options.t] leaves out. *)
Record LoaderOptions : Type := {
  options : Options.t;
  loaderSchemaHeaders : option (list (string * string));
  loaderDisableTimestampScalar : option bool;
  finalSchema : option value
}.

(** The object [options] that [getMeshSource] builds from the fields of
    the handler: [config], [baseDir] and, unused here, [pubsub]. *)
Definition getMeshSourceOptions (config : Config) (baseDir : string)
    (handlerPubsub : MeshPubSub) : LoaderOptions :=
  {| options :=
       {| Options.baseUrl := baseUrl config;
          Options.operationHeaders := operationHeaders config;
          Options.operations := operations config;
          Options.errorMessage := errorMessage config;
          Options.cwd := Some baseDir;
          Options.pubsub := None |};
     loaderSchemaHeaders := schemaHeaders config;
     loaderDisableTimestampScalar := disableTimestampScalar config;
     finalSchema := None |}.

(** [field.subscribe] in a schema built from these options. *)
Definition subscribe (P : Platform) (o : LoaderOptions)
    (operationConfig : OperationConfig.t) (env root args context info : value)
  : result AsyncIterator :=
  pubsub_subscribe P (options o) operationConfig env root args context info.

End Handler.

(* ===================================================================== *)
(** * A concrete deployment, for evaluating the loader *)
(* ===================================================================== *)

Module Demo.
Import Js Loader.

(** ToString on JSON values (numbers below 10^21 in absolute value). *)
Fixpoint toString (v : value) : string :=
  match v with
  | VUndefined => "undefined"
  | VNull => "null"
  | VBool true => "true"
  | VBool false => "false"
  | VNum n => pretty n
  | VStr s => s
  | VArr items =>
      String.concat ","
        (map (fun x => match x with
                       | VUndefined | VNull => EmptyString
                       | _ => toString x
                       end) items)
  | VObj _ => "[object Object]"
  end.

(** The type [to-json-schema] infers at the top of a sample. *)
Definition inferredType (v : value) : string :=
  match v with
  | VUndefined | VNull => "null"
  | VBool _ => "boolean"
  | VNum _ => "integer"
  | VStr _ => "string"
  | VArr _ => "array"
  | VObj _ => "object"
  end.

(** [finalJsonSchema] as a JSON value. *)
Definition schemaValue (finalProperties : gmap string RootDefinition)
  : value :=
  VObj [("type", VStr "object");
        ("title", VStr "_schema");
        ("properties",
         VObj (map (fun kd =>
                      (kd.1,
                       VObj [("type", VStr "object");
                             ("title", VStr (title kd.2));
                             ("properties",
                              VObj (map_to_list (properties kd.2)))]))
                   (map_to_list finalProperties)));
        ("required", VArr [VStr "query"])].

(** A deployment in which
    - templates hold no placeholder, so interpolation returns them;
    - the base URL has no trailing slash, paths start with one, and URLs
      have no query;
    - the input type is no union;
    - the server answers with text that is not JSON;
    - the only readable sample is [./user.json];
    - schemas hold nothing to dereference or to heal. *)
Definition platform : Platform :=
  {| stringInterpolator_parse := fun template _ => default EmptyString template;
     urlJoin := fun base path => base +:+ path;
     URL_new := fun s => Some {| URL.href := s; URL.searchParams := [] |};
     URLSearchParams_new := fun v => inr [(toString v, EmptyString)];
     ToString := toString;
     resolveDataByUnionInputType := fun data => data;
     fetch := fun _ _ => inr "plain text";
     JSON_parse := fun _ => None;
     readFileOrUrl := fun pointer =>
       match pointer with
       | VStr "./user.json" =>
           inr (VObj [("id", VNum 1); ("name", VStr "a")])
       | _ => inl "ENOENT: no such file or directory"
       end;
     toJsonSchema := fun sample => [("type", VStr (inferredType sample))];
     dereferenceObject := fun finalProperties =>
       inr (schemaValue finalProperties);
     healJSONSchema := fun s => inr s;
     referenceJSONSchema := fun s => inr s |}.

(** An operation with only its two mandatory properties. *)
Definition operation (type field : string) : OperationConfig.t :=
  {| OperationConfig.type := type;
     OperationConfig.field := field;
     OperationConfig.description := None;
     OperationConfig.requestSchema := None;
     OperationConfig.requestSample := None;
     OperationConfig.requestTypeName := None;
     OperationConfig.responseSchema := None;
     OperationConfig.responseSample := None;
     OperationConfig.responseTypeName := None;
     OperationConfig.path := None;
     OperationConfig.method := None;
     OperationConfig.headers := None;
     OperationConfig.pubsubTopic := None;
     OperationConfig.otherProps := [] |}.

(** A subscription as the interface declares it, with [pubsubTopic]. *)
Definition onEvent : OperationConfig.t :=
  OperationConfig.with_pubsubTopic "events" (operation "subscription" "onEvent").

(** A configuration that carries the property [pubSubTopic] instead. *)
Definition onEventCapitalS : OperationConfig.t :=
  OperationConfig.with_otherProps [("pubSubTopic", VStr "events")]
    (operation "subscription" "onEvent").

(** An operation with a response schema and with a response sample that
    cannot be read. *)
Definition getOrder : OperationConfig.t :=
  OperationConfig.with_responseSample (VStr "./missing.json")
    (OperationConfig.with_responseSchema (VStr "./order.schema.json")
       (OperationConfig.with_path "/orders" (operation "query" "getOrder"))).

(** Operations whose consulted sample cannot be read. *)
Definition getInvoice : OperationConfig.t :=
  OperationConfig.with_responseSample (VStr "./missing.json")
    (OperationConfig.with_path "/invoices" (operation "query" "getInvoice")).

Definition addInvoice : OperationConfig.t :=
  OperationConfig.with_requestSample (VStr "./missing.json")
    (OperationConfig.with_path "/invoices" (operation "mutation" "addInvoice")).

(** The operation [getInvoice] under another field name. *)
Definition listInvoices : OperationConfig.t :=
  OperationConfig.with_responseSample (VStr "./missing.json")
    (OperationConfig.with_path "/invoices" (operation "query" "listInvoices")).

(** An operation with a response schema and an unreadable request
    sample. *)
Definition putOrder : OperationConfig.t :=
  OperationConfig.with_requestSample (VStr "./missing.json")
    (OperationConfig.with_responseSchema (VStr "./order.schema.json")
       (OperationConfig.with_path "/orders" (operation "mutation" "putOrder"))).

(** An operation with a readable response sample. *)
Definition getProfile : OperationConfig.t :=
  OperationConfig.with_responseSample (VStr "./user.json")
    (OperationConfig.with_path "/profile" (operation "query" "getProfile")).

(** An HTTP operation declared with the type [subscription]. *)
Definition httpSubscription : OperationConfig.t :=
  OperationConfig.with_path "/ticks" (operation "subscription" "ticks").

(** HTTP operations. *)
Definition getUser : OperationConfig.t :=
  OperationConfig.with_method "GET"
    (OperationConfig.with_path "/users" (operation "query" "getUser")).

Definition createUser : OperationConfig.t :=
  OperationConfig.with_path "/users" (operation "Mutation" "createUser").

(** A mutation whose own header spells [content-type] in lower case. *)
Definition submitForm : OperationConfig.t :=
  OperationConfig.with_headers
    [("content-type", "application/x-www-form-urlencoded")]
    (OperationConfig.with_method "POST"
       (OperationConfig.with_path "/forms" (operation "mutation" "submitForm"))).

(** A mutation sent as a form. *)
Definition postForm : OperationConfig.t :=
  OperationConfig.with_headers
    [("Content-Type", "application/x-www-form-urlencoded; charset=utf-8")]
    (OperationConfig.with_path "/forms" (operation "mutation" "postForm")).

(** An operation whose method is none of the nine. *)
Definition purgeCache : OperationConfig.t :=
  OperationConfig.with_method "PURGE"
    (OperationConfig.with_path "/cache" (operation "mutation" "purgeCache")).

Definition options (operations : list OperationConfig.t) : Options.t :=
  {| Options.baseUrl := Some "http://api.test";
     Options.operationHeaders := None;
     Options.operations := operations;
     Options.errorMessage := None;
     Options.cwd := None;
     Options.pubsub := Some Options.meshPubSub |}.

(** Options whose global headers announce JSON. *)
Definition jsonOptions (operations : list OperationConfig.t) : Options.t :=
  {| Options.baseUrl := Some "http://api.test";
     Options.operationHeaders := Some [("Content-Type", "application/json")];
     Options.operations := operations;
     Options.errorMessage := None;
     Options.cwd := None;
     Options.pubsub := Some Options.meshPubSub |}.

(** An operation with a request schema, and the handler configuration of
    a service with one subscription. *)
Definition addOrder : OperationConfig.t :=
  OperationConfig.with_requestSchema (VStr "./order.input.json")
    (OperationConfig.with_path "/orders" (operation "mutation" "addOrder")).

Definition handlerConfig : Handler.Config :=
  {| Handler.baseUrl := Some "http://api.test";
     Handler.operationHeaders := None;
     Handler.schemaHeaders := None;
     Handler.operations := [onEventCapitalS];
     Handler.disableTimestampScalar := None;
     Handler.errorMessage := None |}.

(** [args] with the given [input], and [args] without one. *)
Definition argsWith (input : value) : value := VObj [("input", input)].
Definition noArgs : value := VObj [].

(** The composer of an object type with the given field names, and the
    composer of the scalar type [String]. *)
Definition objectType (fields : list string) : ComposeOutputType :=
  ObjectTypeComposer "Result" fields.

Definition scalarType : ComposeOutputType :=
  ScalarTypeComposer "String".

(** The deployment with a server that answers with the empty JSON
    object. *)
Definition jsonServer : Platform :=
  {| stringInterpolator_parse := stringInterpolator_parse platform;
     urlJoin := urlJoin platform;
     URL_new := URL_new platform;
     URLSearchParams_new := URLSearchParams_new platform;
     ToString := ToString platform;
     resolveDataByUnionInputType := resolveDataByUnionInputType platform;
     fetch := fun _ _ => inr "{}";
     JSON_parse := fun text =>
       if String.eqb text "{}" then Some (VObj []) else None;
     readFileOrUrl := readFileOrUrl platform;
     toJsonSchema := toJsonSchema platform;
     dereferenceObject := dereferenceObject platform;
     healJSONSchema := healJSONSchema platform;
     referenceJSONSchema := referenceJSONSchema platform |}.

End Demo.

(* ===================================================================== *)
(** * Strings *)
(* ===================================================================== *)

Module StringFacts.
Import Js.

#[local] Arguments String.append !_ _ / : simpl nomatch.

Lemma append_empty_r (s : string) : s +:+ EmptyString = s.
Proof. induction s as [|c s IH]; simpl; [done | by rewrite IH]. Qed.

Lemma length_append (a b : string) :
  String.length (a +:+ b) = (String.length a + String.length b)%nat.
Proof. induction a as [|c a IH]; simpl; [done | by rewrite IH]. Qed.

Lemma includes_append (a b : string) (c : ascii) :
  includes (a +:+ b) c = includes a c || includes b c.
Proof.
  induction a as [|c' a IH]; simpl; [done|].
  by rewrite IH, orb_assoc.
Qed.

End StringFacts.

(* ===================================================================== *)
(** * Properties of the placeholder substitution *)
(* ===================================================================== *)

Module ConfigFacts.
Import Js Config StringFacts.

#[local] Arguments String.append !_ _ / : simpl nomatch.

(** [split] always yields a first piece. *)
Lemma split_nonempty (s : string) (c : ascii) : split s c ≠ [].
Proof.
  induction s as [|c' s IH]; simpl; [done|].
  destruct (Ascii.eqb c' c); [done|].
  by destruct (split s c).
Qed.

(** Splitting at the first separator. *)
Lemma split_first (a b : string) (c : ascii) :
  includes a c = false →
  split (a +:+ String c b) c = a :: split b c.
Proof.
  induction a as [|c' a IH]; simpl; intros Hinc.
  - by rewrite Ascii.eqb_refl.
  - apply orb_false_iff in Hinc as [Hc Ha].
    rewrite Hc, (IH Ha). done.
Qed.

(** [join] undoes [split]. *)
Lemma join_split (s : string) (c : ascii) : join (split s c) c = s.
Proof.
  unfold join. induction s as [|c' s IH]; simpl; [done|].
  destruct (Ascii.eqb_spec c' c) as [->|Hne].
  - pose proof (split_nonempty s c) as Hn.
    destruct (split s c) as [|h t]; [done|].
    simpl in *. by rewrite IH.
  - pose proof (split_nonempty s c) as Hn.
    destruct (split s c) as [|h t]; [done|].
    simpl in *. destruct t; simpl in *; by rewrite <- IH.
Qed.

(** The callback on a variable without a colon, and on one with a colon:
    the name is the text before the first colon, the default all the text
    after it. *)
Lemma substitute_plain env (name : string) :
  includes name ":"%char = false →
  substitute env name = read_or env name EmptyString.
Proof. intros H. unfold substitute. by rewrite H. Qed.

Lemma substitute_default env (name dflt : string) :
  includes name ":"%char = false →
  substitute env (name +:+ String ":"%char dflt) = read_or env name dflt.
Proof.
  intros H. unfold substitute.
  rewrite includes_append. simpl. rewrite orb_true_r.
  rewrite (split_first _ _ _ H), join_split. done.
Qed.

(** The group of a placeholder is its text up to the closing brace. *)
Lemma capture_placeholder (v rest : string) :
  placeholder_text v = true →
  capture (v +:+ String "}"%char rest) = Some (v, rest).
Proof.
  induction v as [|c v IH]; simpl; intros H; [done|].
  apply andb_true_iff in H as [H Hv].
  apply andb_true_iff in H as [Hb Ht].
  apply negb_true_iff in Hb, Ht.
  by rewrite Hb, Ht, (IH Hv).
Qed.

(** A match leaves strictly less text behind. *)
Lemma capture_shorter (s v rest : string) :
  capture s = Some (v, rest) →
  (String.length rest < String.length s)%nat.
Proof.
  revert v rest. induction s as [|c s IH]; simpl; intros v rest H; [done|].
  destruct (Ascii.eqb c "}"%char).
  - injection H as <- <-. lia.
  - destruct (line_terminator c); [done|].
    destruct (capture s) as [[v' rest']|] eqn:E; [|done].
    injection H as <- <-. specialize (IH _ _ eq_refl). lia.
Qed.

(** The fuel [replace] starts with is enough: more fuel changes nothing. *)
Lemma replace_from_enough (f : string → string) (n m : nat) (s : string) :
  (String.length s ≤ n)%nat → (String.length s ≤ m)%nat →
  replace_from n f s = replace_from m f s.
Proof.
  revert m s. induction n as [|n IH]; intros m s Hn Hm.
  - destruct s; simpl in *; [by destruct m | lia].
  - destruct m as [|m]; [destruct s; simpl in *; [done | lia]|].
    destruct s as [|c r]; simpl; [done|].
    simpl in Hn, Hm.
    assert (replace_from n f r = replace_from m f r) as Hr
      by (apply IH; lia).
    destruct (Ascii.eqb c "$"%char); [|by rewrite Hr].
    destruct r as [|c2 r2]; [by rewrite Hr|].
    destruct (Ascii.eqb c2 "{"%char); [|by rewrite Hr].
    destruct (capture r2) as [[v rest]|] eqn:E; [|by rewrite Hr].
    apply capture_shorter in E. simpl in Hn, Hm.
    f_equal. apply IH; lia.
Qed.

(** One step of the scan at a placeholder. *)
Lemma replace_from_match (f : string → string) (n : nat) (v post : string) :
  placeholder_text v = true →
  replace_from (S n) f ("${" +:+ v +:+ String "}"%char post)
  = f v +:+ replace_from n f post.
Proof.
  intros Hv. cbn [replace_from String.append]. simpl Ascii.eqb.
  by rewrite (capture_placeholder v post Hv).
Qed.

(** A placeholder inside a text: the text before it, when it holds no
    dollar sign, is copied, and the scan goes on after the closing brace. *)
Lemma replace_from_inside (f : string → string) (n : nat)
    (pre v post : string) :
  includes pre "$"%char = false →
  placeholder_text v = true →
  (String.length (pre +:+ "${" +:+ v +:+ String "}"%char post) ≤ n)%nat →
  replace_from n f (pre +:+ "${" +:+ v +:+ String "}"%char post)
  = pre +:+ f v +:+ replace_from n f post.
Proof.
  intros Hpre Hv. revert n. induction pre as [|c pre IH]; intros n Hn.
  - destruct n as [|n]; [simpl in Hn; lia|].
    change (EmptyString +:+ "${" +:+ v +:+ String "}"%char post)
      with ("${" +:+ v +:+ String "}"%char post) in *.
    rewrite (replace_from_match _ _ _ _ Hv).
    change (EmptyString +:+ f v +:+ replace_from (S n) f post)
      with (f v +:+ replace_from (S n) f post).
    f_equal. simpl in Hn. rewrite length_append in Hn. simpl in Hn.
    apply replace_from_enough; lia.
  - destruct n as [|n]; [simpl in Hn; lia|].
    simpl in Hpre. apply orb_false_iff in Hpre as [Hc Hp].
    change (String c pre +:+ "${" +:+ v +:+ String "}"%char post)
      with (String c (pre +:+ "${" +:+ v +:+ String "}"%char post)) in *.
    cbn [String.length] in Hn.
    assert (String.length post ≤ n)%nat as Hpost.
    { rewrite !length_append in Hn. simpl in Hn. lia. }
    rewrite (replace_from_enough f (S n) n post) by lia.
    cbn [replace_from]. rewrite Hc.
    rewrite (IH Hp n) by lia. done.
Qed.

Lemma replace_inside (f : string → string) (pre v post : string) :
  includes pre "$"%char = false →
  placeholder_text v = true →
  replace f (pre +:+ "${" +:+ v +:+ String "}"%char post)
  = pre +:+ f v +:+ replace f post.
Proof.
  intros Hpre Hv. unfold replace.
  rewrite (replace_from_inside _ _ _ _ _ Hpre Hv) by done.
  f_equal. f_equal. apply replace_from_enough; [|done].
  rewrite ?length_append. simpl. rewrite ?length_append. simpl. lia.
Qed.

(** A text that is one placeholder is replaced by the callback's result. *)
Lemma replace_placeholder (f : string → string) (v : string) :
  placeholder_text v = true →
  replace f ("${" +:+ v +:+ "}") = f v.
Proof.
  intros Hv.
  pose proof (replace_inside f EmptyString v EmptyString eq_refl Hv) as H.
  change (EmptyString +:+ "${" +:+ v +:+ "}") with ("${" +:+ v +:+ "}") in H.
  rewrite H. unfold replace. simpl. apply append_empty_r.
Qed.

Lemma placeholder_text_append (a b : string) :
  placeholder_text (a +:+ b) = placeholder_text a && placeholder_text b.
Proof.
  induction a as [|c a IH]; simpl; [done|].
  by rewrite IH, !andb_assoc.
Qed.

(** The loader on a text with three placeholders, one of them bound. *)
Example loader_content_example :
  loader_content (fun k => if String.eqb k "PORT" then Some "80" else None)
    "http://${HOST:localhost}:${PORT}/${a:b:c}"
  = "http://localhost:80/b:c".
Proof. reflexivity. Qed.

(** A placeholder cannot span lines: the text is left as it is. *)
Example loader_content_line_break :
  loader_content (fun _ => None)
    (String "$" (String "{" (String "a" (String "010" (String "}" "${b}")))))
  = String "$" (String "{" (String "a" (String "010" (String "}" EmptyString)))).
Proof. reflexivity. Qed.

(** C7 as stated fails: the names [toString] and [constructor] have no
    binding in the empty environment, yet [process.env] inherits a function
    under each from [Object.prototype]; the read finds it, it is truthy,
    and its text is inserted, not the default and not the empty string. *)
Lemma C7_inherited_counterexample :
  loader_content (fun _ => None) "${toString:fallback}"
  = "function toString() { [native code] }"
  ∧ loader_content (fun _ => None) "${constructor}"
    = "function Object() { [native code] }".
Proof. split; reflexivity. Qed.

(** C7, amended.  For a name that has no binding and is not the name of a
    property that [process.env] inherits from [Object.prototype]:
    interpolating [${name:default}] yields [default], and interpolating
    [${name}] yields the empty string; and [${a:b:c}] looks up the
    variable [a] with the default [b:c]: everything after the first colon
    is the default.  Here [name] and [default] are the texts of a
    placeholder: the name holds no colon, and neither holds a closing
    brace or a line terminator. *)
Theorem C7_placeholder_default
    (env : string → option string) (name dflt : string) :
  includes name ":"%char = false →
  placeholder_text name = true →
  placeholder_text dflt = true →
  env name = None →
  inherited name = None →
  loader_content env ("${" +:+ name +:+ ":" +:+ dflt +:+ "}") = dflt
  ∧ loader_content env ("${" +:+ name +:+ "}") = EmptyString
  ∧ (∀ env' : string → option string,
       loader_content env' "${a:b:c}" = str_or (env' "a") "b:c").
Proof.
  intros Hcolon Hname Hdflt Henv Hinh. unfold loader_content. repeat split.
  - replace ("${" +:+ name +:+ ":" +:+ dflt +:+ "}")
      with ("${" +:+ (name +:+ String ":"%char dflt) +:+ "}").
    + rewrite replace_placeholder.
      * rewrite (substitute_default _ _ _ Hcolon). unfold read_or.
        by rewrite Henv, Hinh.
      * rewrite placeholder_text_append. simpl. by rewrite Hname, Hdflt.
    + simpl. f_equal. f_equal.
      clear. induction name as [|c n IH]; simpl; [done | by rewrite IH].
  - rewrite (replace_placeholder _ _ Hname).
    rewrite (substitute_plain _ _ Hcolon). unfold read_or.
    by rewrite Henv, Hinh.
  - intros env'.
    change "${a:b:c}" with ("${" +:+ ("a" +:+ String ":"%char "b:c") +:+ "}").
    rewrite replace_placeholder by done.
    rewrite substitute_default by done. unfold read_or, str_or.
    by destruct (env' "a").
Qed.

(** The statement at a concrete unbound name. *)
Lemma C7_placeholder_default_witness :
  loader_content (fun _ => None) "${HOST:localhost:8080}" = "localhost:8080"
  ∧ loader_content (fun _ => None) "${HOST}" = EmptyString.
Proof.
  pose proof (C7_placeholder_default (fun _ => None) "HOST" "localhost:8080"
                eq_refl eq_refl eq_refl eq_refl eq_refl) as (H1 & H2 & _).
  split; [exact H1 | exact H2].
Defined.

End ConfigFacts.

(* ===================================================================== *)
(** * Properties of the classification and of the metadata *)
(* ===================================================================== *)

Module MetadataFacts.
Import Js Loader.

(** What the metadata of an operation is, by the verdict of the
    classifier. *)
Lemma metadata_pubsub (c : OperationConfig.t) :
  isPubSubOperationConfig c = true →
  getOperationMetadata c
  = {| httpMethod := None; operationType := "subscription";
       rootTypeName := Subscription;
       fieldName := OperationConfig.field c |}.
Proof. intros H. unfold getOperationMetadata. by rewrite H. Qed.

Lemma metadata_http (c : OperationConfig.t) :
  isPubSubOperationConfig c = false →
  getOperationMetadata c
  = {| httpMethod :=
         if truthy_str (OperationConfig.method c) then OperationConfig.method c
         else if String.eqb (toLowerCase (OperationConfig.type c)) "mutation"
              then Some "POST" else Some "GET";
       operationType := toLowerCase (OperationConfig.type c);
       rootTypeName :=
         if String.eqb (toLowerCase (OperationConfig.type c)) "query"
         then Query else Mutation;
       fieldName := OperationConfig.field c |}.
Proof.
  intros H. unfold getOperationMetadata. rewrite H.
  by destruct (truthy_str (OperationConfig.method c)).
Qed.

(** The field name is the configured one. *)
Lemma fieldName_metadata (c : OperationConfig.t) :
  fieldName (getOperationMetadata c) = OperationConfig.field c.
Proof.
  unfold getOperationMetadata.
  by destruct (isPubSubOperationConfig c).
Qed.

(** When the classifier accepts an operation, the binder attaches the
    pubsub pair: [subscribe] interpolates [operationConfig.pubsubTopic]
    against the interpolation data and asks the pubsub subsystem of the
    options, when there is one, for the iterator of that topic; [resolve]
    hands the payload back. *)
Lemma bind_classified (P : Platform) (c : OperationConfig.t) (env : value)
    (o : Options.t) (rt : ComposeOutputType) (d : option string) :
  isPubSubOperationConfig c = true →
  ∃ description subscribe resolve,
    bindOperation P o c rt env d = PubSubBinding description subscribe resolve
    ∧ (∀ root args context info,
         subscribe root args context info
         = match Options.pubsub o with
           | Some _ =>
               inr (asyncIterator
                      (stringInterpolator_parse P
                         (OperationConfig.pubsubTopic c)
                         (interpolationData env root args context info)))
           | None =>
               inl (TypeError
                      "Cannot read properties of undefined: asyncIterator")
           end)
    ∧ (∀ root, resolve root = root).
Proof.
  intros H. unfold bindOperation. rewrite H.
  eexists _, _, _. split; [reflexivity|]. split; done.
Qed.

(** C1, at a subscription declared as the interface
    [JSONSchemaPubSubOperationConfig] says, with the property
    [pubsubTopic]: the classifier tests for the property [pubSubTopic], so
    the operation that carries [pubsubTopic] is not classified pubsub-kind,
    gets the root type [Mutation], and no [subscribe] is bound to it. *)
Theorem C1_pubsubTopic_not_classified :
  OperationConfig.has "pubsubTopic" Demo.onEvent = true
  ∧ isPubSubOperationConfig Demo.onEvent = false
  ∧ rootTypeName (getOperationMetadata Demo.onEvent) = Mutation
  ∧ bindOperation Demo.platform (Demo.options [Demo.onEvent]) Demo.onEvent
      (Demo.objectType []) (VObj []) None = Unbound.
Proof. repeat split. Qed.

(** C2 as stated fails: an HTTP operation that carries no pubsub topic and
    whose declared type is [subscription], not [mutation], gets the root
    type [Mutation], not [Query]; and an operation classified pubsub-kind
    has no HTTP method, not [GET]. *)
Lemma C2_root_type_counterexample :
  OperationConfig.has "pubsubTopic" Demo.httpSubscription = false
  ∧ isPubSubOperationConfig Demo.httpSubscription = false
  ∧ toLowerCase (OperationConfig.type Demo.httpSubscription) ≠ "mutation"
  ∧ rootTypeName (getOperationMetadata Demo.httpSubscription) = Mutation
  ∧ rootTypeName (getOperationMetadata Demo.httpSubscription) ≠ Query
  ∧ OperationConfig.method Demo.onEventCapitalS = None
  ∧ httpMethod (getOperationMetadata Demo.onEventCapitalS) = None.
Proof. repeat split; done. Qed.

(** C2, amended.  An operation the classifier accepts gets the root type
    [Subscription] and no HTTP method.  An operation that carries no pubsub
    topic under either spelling gets [Query] when its declared type
    lower-cases to [query] and [Mutation] in every other case; its HTTP
    method is the configured one when that is a non-empty string, otherwise
    [POST] when the declared type lower-cases to [mutation] and [GET] in
    every other case. *)
Theorem C2_operation_metadata (c : OperationConfig.t) :
  (isPubSubOperationConfig c = true →
     rootTypeName (getOperationMetadata c) = Subscription
     ∧ httpMethod (getOperationMetadata c) = None)
  ∧ (OperationConfig.has "pubsubTopic" c = false →
     OperationConfig.has "pubSubTopic" c = false →
     rootTypeName (getOperationMetadata c)
     = (if String.eqb (toLowerCase (OperationConfig.type c)) "query"
        then Query else Mutation)
     ∧ httpMethod (getOperationMetadata c)
       = (if truthy_str (OperationConfig.method c)
          then OperationConfig.method c
          else if String.eqb (toLowerCase (OperationConfig.type c)) "mutation"
               then Some "POST" else Some "GET")).
Proof.
  split.
  - intros H. by rewrite (metadata_pubsub c H).
  - intros _ H. by rewrite (metadata_http c H).
Qed.

(** The statement at a classified operation and at two HTTP operations. *)
Lemma C2_operation_metadata_witness :
  (rootTypeName (getOperationMetadata Demo.onEventCapitalS) = Subscription
   ∧ httpMethod (getOperationMetadata Demo.onEventCapitalS) = None)
  ∧ (rootTypeName (getOperationMetadata Demo.getUser) = Query
     ∧ httpMethod (getOperationMetadata Demo.getUser) = Some "GET")
  ∧ (rootTypeName (getOperationMetadata Demo.createUser) = Mutation
     ∧ httpMethod (getOperationMetadata Demo.createUser) = Some "POST").
Proof.
  split; [|split].
  - exact (proj1 (C2_operation_metadata Demo.onEventCapitalS) eq_refl).
  - exact (proj2 (C2_operation_metadata Demo.getUser) eq_refl eq_refl).
  - exact (proj2 (C2_operation_metadata Demo.createUser) eq_refl eq_refl).
Defined.

End MetadataFacts.

(* ===================================================================== *)
(** * Properties of the request an HTTP resolver builds *)
(* ===================================================================== *)

Module RequestFacts.
Import Js Loader.

Section SearchParams.

Lemma named_removed (k : string) (l : list (string * string)) :
  URL.named k (List.filter (fun p => negb (String.eqb p.1 k)) l) = [].
Proof.
  induction l as [|[n v] l IH]; simpl; [done|].
  destruct (String.eqb n k) eqn:E; simpl; [done|].
  by rewrite E.
Qed.

Lemma named_kept (k k' : string) (l : list (string * string)) :
  k ≠ k' →
  URL.named k' (List.filter (fun p => negb (String.eqb p.1 k)) l)
  = URL.named k' l.
Proof.
  intros Hne. induction l as [|[n v] l IH]; simpl; [done|].
  destruct (String.eqb_spec n k) as [->|Hn]; simpl.
  - destruct (String.eqb_spec k k'); [done|]. exact IH.
  - destruct (String.eqb n k'); [by rewrite IH | exact IH].
Qed.

(** After [set(k, v)] exactly one pair is named [k], and it carries [v]. *)
Lemma set_named_same (k v : string) (l : list (string * string)) :
  URL.named k (URL.set k v l) = [(k, v)].
Proof.
  induction l as [|[n w] l IH]; simpl.
  - by rewrite String.eqb_refl.
  - destruct (String.eqb n k) eqn:E; simpl.
    + rewrite String.eqb_refl. f_equal. apply named_removed.
    + by rewrite E.
Qed.

(** [set(k, v)] leaves the pairs of every other name alone. *)
Lemma set_named_other (k k' v : string) (l : list (string * string)) :
  k ≠ k' → URL.named k' (URL.set k v l) = URL.named k' l.
Proof.
  intros Hne. induction l as [|[n w] l IH]; simpl.
  - by destruct (String.eqb_spec k k').
  - destruct (String.eqb_spec n k) as [->|Hn]; simpl.
    + destruct (String.eqb_spec k k'); [done|]. by apply named_kept.
    + destruct (String.eqb n k'); [by rewrite IH | exact IH].
Qed.

(** The query after the [forEach]: a name among the new pairs has exactly
    one pair, with the value of its last new pair; any other name keeps
    its pairs. *)
Lemma writeSearchParams_named (k : string)
    (news old : list (string * string)) :
  URL.named k (writeSearchParams news old)
  = match URL.lastValue k news with
    | Some v => [(k, v)]
    | None => URL.named k old
    end.
Proof.
  unfold writeSearchParams. revert old.
  induction news as [|[n v] news IH]; intros old; simpl; [done|].
  rewrite IH. destruct (URL.lastValue k news); [done|].
  destruct (String.eqb_spec n k) as [->|Hn].
  - apply set_named_same.
  - by apply set_named_other.
Qed.

Lemma lastValue_None (k : string) (l : list (string * string)) :
  k ∉ l.*1 → URL.lastValue k l = None.
Proof.
  induction l as [|[n v] l IH]; simpl; intros Hk; [done|].
  apply not_elem_of_cons in Hk as [Hne Hk].
  rewrite (IH Hk). destruct (String.eqb_spec n k); [congruence | done].
Qed.

Lemma lastValue_unique (k v : string) (l : list (string * string)) :
  NoDup l.*1 → (k, v) ∈ l → URL.lastValue k l = Some v.
Proof.
  induction l as [|[n w] l IH]; simpl; intros Hnd Hin.
  - by apply elem_of_nil in Hin.
  - apply NoDup_cons in Hnd as [Hn Hnd].
    apply elem_of_cons in Hin as [Heq|Hin].
    + injection Heq as <- <-.
      rewrite (lastValue_None _ _ Hn). by rewrite String.eqb_refl.
    + by rewrite (IH Hnd Hin).
Qed.

End SearchParams.

(** The first header whose name lower-cases to [content-type] decides. *)
Lemma findContentType_first (pre post : list (string * string))
    (k ct : string) :
  (∀ kv, kv ∈ pre → toLowerCase kv.1 ≠ "content-type") →
  toLowerCase k = "content-type" →
  findContentType (pre ++ (k, ct) :: post) = Some ct.
Proof.
  intros Hpre Hk. unfold findContentType.
  induction pre as [|[n v] pre IH]; simpl.
  - by rewrite Hk.
  - destruct (String.eqb_spec (toLowerCase n) "content-type") as [E|_].
    + exfalso. apply (Hpre (n, v)); [left | done].
    + apply IH. intros kv Hkv. apply Hpre. by right.
Qed.

Lemma findContentType_none (headers : list (string * string)) :
  (∀ kv, kv ∈ headers → toLowerCase kv.1 ≠ "content-type") →
  findContentType headers = None.
Proof.
  intros H. unfold findContentType.
  induction headers as [|[n v] l IH]; simpl; [done|].
  destruct (String.eqb_spec (toLowerCase n) "content-type") as [E|_].
  - exfalso. apply (H (n, v)); [left | done].
  - apply IH. intros kv Hkv. apply H. by right.
Qed.

Section Request.

Context (P : Platform) (options : Options.t) (c : OperationConfig.t).
Context (env root args context info : value).

(** With a truthy input the request is what the [switch] makes of it. *)
Lemma prepareRequest_input (u : URL.t) (argsInput : value) :
  URL_new P (fullPath P options c env root args context info) = Some u →
  get args "input" = inr argsInput →
  truthy (resolveDataByUnionInputType P argsInput) = true →
  prepareRequest P options c env root args context info
  = applyInput P (httpMethod (getOperationMetadata c))
      (resolveDataByUnionInputType P argsInput) u
      (initialRequest P options c env root args context info).
Proof.
  intros Hu Ha Ht. unfold prepareRequest. rewrite Hu, Ha.
  simpl. by rewrite Ht.
Qed.

(** With a falsy input the [switch] is not reached. *)
Lemma prepareRequest_no_input (u : URL.t) (argsInput : value) :
  URL_new P (fullPath P options c env root args context info) = Some u →
  get args "input" = inr argsInput →
  truthy (resolveDataByUnionInputType P argsInput) = false →
  prepareRequest P options c env root args context info
  = inr (u, initialRequest P options c env root args context info).
Proof.
  intros Hu Ha Ht. unfold prepareRequest. rewrite Hu, Ha.
  simpl. by rewrite Ht.
Qed.

(** A method with a body is not one without. *)
Lemma bodied_not_bodyless (m : string) :
  is_in m bodied = true → is_in m bodyless = false.
Proof.
  unfold is_in, bodied, bodyless. simpl. intros H.
  repeat (apply orb_true_iff in H as [H|H];
          [apply String.eqb_eq in H as ->; reflexivity|]).
  done.
Qed.

(** C5, amended.  With a truthy resolved input: when the method is GET,
    HEAD, CONNECT, OPTIONS or TRACE, every key of an input object is written
    into the query of the URL, as the only parameter of that name, the
    parameters of other names stay, and no request body is set; when the
    method is POST, PUT, PATCH or DELETE, the body is the URL-encoded form
    of the input if the first header whose name lower-cases to
    [content-type] has a value that starts with
    [application/x-www-form-urlencoded], and the flattened JSON of the
    input otherwise, also when there is no such header.  (An object has
    each of its keys once: [NoDup].) *)
Theorem C5_input_serialization (u : URL.t) (argsInput : value) (m : string) :
  URL_new P (fullPath P options c env root args context info) = Some u →
  get args "input" = inr argsInput →
  truthy (resolveDataByUnionInputType P argsInput) = true →
  httpMethod (getOperationMetadata c) = Some m →
  (is_in m bodyless = true →
   ∀ props : list (string * value),
     resolveDataByUnionInputType P argsInput = VObj props →
     NoDup props.*1 →
     ∃ u' : URL.t,
       prepareRequest P options c env root args context info
       = inr (u', initialRequest P options c env root args context info)
       ∧ RequestInit.body
           (initialRequest P options c env root args context info) = None
       ∧ (∀ k x, (k, x) ∈ props →
            URL.named k (URL.searchParams u') = [(k, ToString P x)])
       ∧ (∀ k, k ∉ props.*1 →
            URL.named k (URL.searchParams u')
            = URL.named k (URL.searchParams u)))
  ∧ (is_in m bodied = true →
     (∀ pre post k ct,
        requestHeaders P options c
          (interpolationData env root args context info)
        = pre ++ (k, ct) :: post →
        (∀ kv, kv ∈ pre → toLowerCase kv.1 ≠ "content-type") →
        toLowerCase k = "content-type" →
        prepareRequest P options c env root args context info
        = inr (u,
               RequestInit.with_body
                 (if startsWith ct "application/x-www-form-urlencoded"
                  then RequestInit.qsStringify
                         (resolveDataByUnionInputType P argsInput)
                  else RequestInit.jsonFlatStringify
                         (resolveDataByUnionInputType P argsInput))
                 (initialRequest P options c env root args context info)))
     ∧ ((∀ kv,
           kv ∈ requestHeaders P options c
                  (interpolationData env root args context info) →
           toLowerCase kv.1 ≠ "content-type") →
        prepareRequest P options c env root args context info
        = inr (u,
               RequestInit.with_body
                 (RequestInit.jsonFlatStringify
                    (resolveDataByUnionInputType P argsInput))
                 (initialRequest P options c env root args context info)))).
Proof.
  intros Hu Ha Ht Hm.
  rewrite (prepareRequest_input u argsInput Hu Ha Ht), Hm.
  unfold applyInput. split.
  - intros Hless props Hprops Hnd. rewrite Hless, Hprops. simpl.
    eexists. split; [reflexivity|]. split; [done|]. simpl. split.
    + intros k x Hin. rewrite writeSearchParams_named.
      rewrite (lastValue_unique k (ToString P x)); [done| |].
      * by rewrite <- list_fmap_compose.
      * apply (list_elem_of_fmap_2 (λ kv, (kv.1, ToString P kv.2)) _ _ Hin).
    + intros k Hk. rewrite writeSearchParams_named.
      rewrite lastValue_None; [done|]. by rewrite <- list_fmap_compose.
  - intros Hbody. rewrite (bodied_not_bodyless m Hbody), Hbody. split.
    + intros pre post k ct Hh Hpre Hk. simpl. rewrite Hh.
      rewrite (findContentType_first pre post k ct Hpre Hk).
      by destruct (startsWith ct "application/x-www-form-urlencoded").
    + intros Hnone. simpl. by rewrite (findContentType_none _ Hnone).
Qed.

(** C6, amended.  When the resolved input is truthy and the effective
    method is none of GET, HEAD, CONNECT, OPTIONS, TRACE, POST, PUT, PATCH,
    DELETE, the resolver throws, before it fetches, an [Error] whose message
    names the method. *)
Theorem C6_unknown_method (rt : ComposeOutputType) (u : URL.t)
    (argsInput : value) (m : string) :
  URL_new P (fullPath P options c env root args context info) = Some u →
  get args "input" = inr argsInput →
  truthy (resolveDataByUnionInputType P argsInput) = true →
  httpMethod (getOperationMetadata c) = Some m →
  is_in m (bodyless ++ bodied) = false →
  prepareRequest P options c env root args context info
  = inl (Thrown (Error ("Unknown method " +:+ m)))
  ∧ http_resolve P options c rt env root args context info
    = inl (Thrown (Error ("Unknown method " +:+ m))).
Proof.
  intros Hu Ha Ht Hm Hnone.
  assert (prepareRequest P options c env root args context info
          = inl (Thrown (Error ("Unknown method " +:+ m)))) as Hp.
  { rewrite (prepareRequest_input u argsInput Hu Ha Ht), Hm.
    unfold applyInput, is_in in *. rewrite existsb_app in Hnone.
    apply orb_false_iff in Hnone as [-> ->]. done. }
  split; [exact Hp|]. unfold http_resolve. by rewrite Hp.
Qed.

End Request.

(** The amended C5 at a [GET] with the input [{ id: "7" }] and at a [POST]
    whose only content type announces a form. *)
Lemma C5_input_serialization_witness :
  (∃ u' : URL.t,
     prepareRequest Demo.platform (Demo.options [Demo.getUser]) Demo.getUser
       (VObj []) VNull (Demo.argsWith (VObj [("id", VStr "7")])) VNull VNull
     = inr (u',
            initialRequest Demo.platform (Demo.options [Demo.getUser])
              Demo.getUser (VObj []) VNull
              (Demo.argsWith (VObj [("id", VStr "7")])) VNull VNull)
     ∧ URL.named "id" (URL.searchParams u') = [("id", "7")])
  ∧ prepareRequest Demo.platform (Demo.options [Demo.postForm]) Demo.postForm
      (VObj []) VNull (Demo.argsWith (VObj [("a", VStr "1")])) VNull VNull
    = inr ({| URL.href := "http://api.test/forms"; URL.searchParams := [] |},
           RequestInit.with_body
             (RequestInit.qsStringify (VObj [("a", VStr "1")]))
             (initialRequest Demo.platform (Demo.options [Demo.postForm])
                Demo.postForm (VObj []) VNull
                (Demo.argsWith (VObj [("a", VStr "1")])) VNull VNull)).
Proof.
  split.
  - destruct (C5_input_serialization Demo.platform
                (Demo.options [Demo.getUser]) Demo.getUser (VObj []) VNull
                (Demo.argsWith (VObj [("id", VStr "7")])) VNull VNull
                {| URL.href := "http://api.test/users";
                   URL.searchParams := [] |}
                (VObj [("id", VStr "7")]) "GET"
                eq_refl eq_refl eq_refl eq_refl) as [Hget _].
    destruct (Hget eq_refl [("id", VStr "7")] eq_refl
                (NoDup_singleton "id")) as (u' & Hp & _ & Hk & _).
    exists u'. split; [exact Hp|].
    apply (Hk "id" (VStr "7")). apply list_elem_of_singleton. reflexivity.
  - destruct (C5_input_serialization Demo.platform
                (Demo.options [Demo.postForm]) Demo.postForm (VObj []) VNull
                (Demo.argsWith (VObj [("a", VStr "1")])) VNull VNull
                {| URL.href := "http://api.test/forms";
                   URL.searchParams := [] |}
                (VObj [("a", VStr "1")]) "POST"
                eq_refl eq_refl eq_refl eq_refl) as [_ Hpost].
    destruct (Hpost eq_refl) as [Hfirst _].
    apply (Hfirst [] [] "Content-Type"
             "application/x-www-form-urlencoded; charset=utf-8" eq_refl).
    + intros kv Hkv. by apply elem_of_nil in Hkv.
    + reflexivity.
Defined.

(** The amended C6 at the method [PURGE] with the input [{ a: "1" }]. *)
Lemma C6_unknown_method_witness :
  prepareRequest Demo.platform (Demo.options [Demo.purgeCache])
    Demo.purgeCache (VObj []) VNull
    (Demo.argsWith (VObj [("a", VStr "1")])) VNull VNull
  = inl (Thrown (Error "Unknown method PURGE"))
  ∧ http_resolve Demo.platform (Demo.options [Demo.purgeCache])
      Demo.purgeCache Demo.scalarType (VObj []) VNull
      (Demo.argsWith (VObj [("a", VStr "1")])) VNull VNull
    = inl (Thrown (Error "Unknown method PURGE")).
Proof.
  exact (C6_unknown_method Demo.platform (Demo.options [Demo.purgeCache])
           Demo.purgeCache (VObj []) VNull
           (Demo.argsWith (VObj [("a", VStr "1")])) VNull VNull
           Demo.scalarType
           {| URL.href := "http://api.test/cache"; URL.searchParams := [] |}
           (VObj [("a", VStr "1")]) "PURGE"
           eq_refl eq_refl eq_refl eq_refl eq_refl).
Defined.

(** C5 as stated fails twice.  With the global header [Content-Type:
    application/json] and the operation's own header [content-type:
    application/x-www-form-urlencoded], some header whose name lower-cases
    to [content-type] announces a form, yet the body of the [POST] is the
    flattened JSON: the first such header decides.  And the input [false]
    is not null, yet no body is set for it: the test is for truthiness. *)
Lemma C5_serialization_counterexample :
  let input := VObj [("a", VStr "1")] in
  let headers :=
    requestHeaders Demo.platform (Demo.jsonOptions [Demo.submitForm])
      Demo.submitForm
      (interpolationData (VObj []) VNull (Demo.argsWith input) VNull VNull) in
  httpMethod (getOperationMetadata Demo.submitForm) = Some "POST"
  ∧ ("content-type", "application/x-www-form-urlencoded") ∈ headers
  ∧ startsWith "application/x-www-form-urlencoded"
      "application/x-www-form-urlencoded" = true
  ∧ RequestInit.body
      <$> (snd <$> prepareRequest Demo.platform
                     (Demo.jsonOptions [Demo.submitForm]) Demo.submitForm
                     (VObj []) VNull (Demo.argsWith input) VNull VNull)
    = inr (Some (RequestInit.jsonFlatStringify input))
  ∧ RequestInit.body
      <$> (snd <$> prepareRequest Demo.platform
                     (Demo.options [Demo.postForm]) Demo.postForm
                     (VObj []) VNull (Demo.argsWith (VBool false)) VNull VNull)
    = inr None.
Proof.
  repeat split.
  apply elem_of_cons. right. apply elem_of_cons. by left.
Qed.

(** C6 as stated fails: the method [PURGE] is none of the nine, and an
    invocation without an input raises no error; the request is fetched
    with that method and the answer is returned. *)
Lemma C6_unknown_method_counterexample :
  httpMethod (getOperationMetadata Demo.purgeCache) = Some "PURGE"
  ∧ is_in "PURGE" (bodyless ++ bodied) = false
  ∧ prepareRequest Demo.platform (Demo.options [Demo.purgeCache])
      Demo.purgeCache (VObj []) VNull Demo.noArgs VNull VNull
    = inr ({| URL.href := "http://api.test/cache"; URL.searchParams := [] |},
           {| RequestInit.method := Some "PURGE";
              RequestInit.headers := [];
              RequestInit.body := None |})
  ∧ http_resolve Demo.jsonServer (Demo.options [Demo.purgeCache])
      Demo.purgeCache Demo.scalarType (VObj []) VNull Demo.noArgs VNull VNull
    = inr (Plain (VObj [])).
Proof. repeat split. Qed.

End RequestFacts.

(* ===================================================================== *)
(** * Properties of the response handling of an HTTP resolver *)
(* ===================================================================== *)

Module ResponseFacts.
Import Js Loader.

Section Response.

Context (P : Platform) (options : Options.t) (c : OperationConfig.t).
Context (rt : ComposeOutputType).

(** Normalizing never yields an aggregate. *)
Lemma normalizeError_not_aggregate (e : value) (es : list jsresult)
    (msg : string) :
  normalizeError P options e ≠ AggregateError es msg.
Proof.
  unfold normalizeError.
  by destruct (typeof_object e && _).
Qed.

(** A body with a readable [errors] property has a readable [error]. *)
Lemma get_total (body e0 : value) (k k' : string) :
  get body k = inr e0 → ∃ e, get body k' = inr e.
Proof. destruct body; simpl; intros H; by eauto. Qed.

(** The handling of a body whose [errors] property is an array. *)
Lemma handleJson_errors_array (body : value) (items : list value) :
  get body "errors" = inr (VArr items) →
  handleJson P options c rt body
  = if negb (bool_decide (items = [])) && negb (declaresField rt "errors")
    then inr (AggregateError (map (normalizeError P options) items)
                (qualifiedName c +:+ " failed"))
    else singularError P options rt body.
Proof.
  intros He. unfold handleJson. rewrite He.
  destruct items as [|i items]; simpl; [done|].
  by destruct (declaresField rt "errors").
Qed.

(** The handling of a body whose [errors] and [_errors] properties are
    both falsy. *)
Lemma handleJson_no_errors (body e0 e1 : value) :
  get body "errors" = inr e0 → truthy e0 = false →
  get body "_errors" = inr e1 → truthy e1 = false →
  handleJson P options c rt body = singularError P options rt body.
Proof.
  intros H0 T0 H1 T1. unfold handleJson. rewrite H0. simpl.
  rewrite T0, H1. simpl.
  destruct e1 as [| |b|n|s|l|o]; simpl in *; try done.
  destruct s; simpl in *; [done | discriminate].
Qed.

(** An aggregate comes from a non-empty array, read from [errors] or, when
    that is falsy, from [_errors], and from a return type without a field
    [errors]. *)
Lemma handleJson_aggregate (body : value) (es : list jsresult)
    (msg : string) :
  handleJson P options c rt body = inr (AggregateError es msg) →
  ∃ items : list value,
    items ≠ []
    ∧ es = map (normalizeError P options) items
    ∧ declaresField rt "errors" = false
    ∧ (get body "errors" = inr (VArr items)
       ∨ ∃ e0, get body "errors" = inr e0 ∧ truthy e0 = false
               ∧ get body "_errors" = inr (VArr items)).
Proof.
  unfold handleJson.
  destruct (get body "errors") as [t|e0] eqn:H0; simpl; [done|].
  assert (∀ errors,
    (len ← optLength errors;
     aggregated ←
       (if truthy len then
          if negb (declaresField rt "errors") then
            normalized ← mapErrors P options errors;
            mret (Some (AggregateError normalized
                          (qualifiedName c +:+ " failed")))
          else mret None
        else mret None);
     match aggregated with
     | Some aggregatedError => mret aggregatedError
     | None => singularError P options rt body
     end) = inr (AggregateError es msg) →
    ∃ items, errors = VArr items ∧ items ≠ []
             ∧ es = map (normalizeError P options) items
             ∧ declaresField rt "errors" = false) as Hcore.
  { intros errors.
    assert (singularError P options rt body
            ≠ inr (AggregateError es msg)) as Hsing.
    { unfold singularError.
      destruct (get body "error") as [t|e]; simpl; [done|].
      destruct (truthy e && _); [|done].
      intros [= H]. by apply normalizeError_not_aggregate in H. }
    destruct errors as [| |b|n|s|items|o]; simpl; try done.
    - destruct (negb _); simpl; [|done].
      destruct (declaresField rt "errors"); simpl; done.
    - destruct items as [|i items]; simpl; [done|].
      destruct (declaresField rt "errors") eqn:Hd; simpl; [done|].
      intros [= <- <-]. by eexists.
    - destruct (truthy _); simpl; [|done].
      destruct (declaresField rt "errors"); simpl; done. }
  destruct (truthy e0) eqn:T0; simpl.
  - intros H. apply Hcore in H as (items & -> & Hne & Hes & Hd).
    exists items. by eauto.
  - destruct (get body "_errors") as [t|e1] eqn:H1; simpl; [done|].
    intros H. apply Hcore in H as (items & -> & Hne & Hes & Hd).
    exists items. repeat split; [done..|]. right. by eauto.
Qed.

(** C3, amended.  For a parsed body whose [errors] property is an array:
    if the array is not empty and the return type declares no field
    [errors], the resolver returns one aggregated error built by
    normalizing each entry, not the body; if the return type declares a
    field [errors], or the array is empty, the singular rule decides.  The
    singular rule also decides for a body whose [errors] and [_errors]
    properties are absent or otherwise falsy.  The singular rule: a truthy
    [error] property, when the return type declares no field [error], is
    normalized and returned; otherwise the body is returned unchanged as
    data. *)
Theorem C3_error_detection (body : value) :
  (∀ items : list value,
     get body "errors" = inr (VArr items) →
     (items ≠ [] → declaresField rt "errors" = false →
      handleJson P options c rt body
      = inr (AggregateError (map (normalizeError P options) items)
               (qualifiedName c +:+ " failed")))
     ∧ (declaresField rt "errors" = true ∨ items = [] →
        ∃ error : value,
          get body "error" = inr error
          ∧ handleJson P options c rt body
            = (if truthy error && negb (declaresField rt "error")
               then inr (normalizeError P options error)
               else inr (Plain body))))
  ∧ (∀ e0 e1 : value,
       get body "errors" = inr e0 → truthy e0 = false →
       get body "_errors" = inr e1 → truthy e1 = false →
       ∃ error : value,
         get body "error" = inr error
         ∧ handleJson P options c rt body
           = (if truthy error && negb (declaresField rt "error")
              then inr (normalizeError P options error)
              else inr (Plain body))).
Proof.
  split.
  - intros items He. rewrite (handleJson_errors_array body items He). split.
    + intros Hne ->. rewrite bool_decide_eq_false_2 by done. done.
    + intros Hskip.
      destruct (get_total body _ "errors" "error" He) as [error Herr].
      exists error. split; [done|]. unfold singularError. rewrite Herr.
      destruct Hskip as [-> | ->]; [by rewrite andb_false_r | done].
  - intros e0 e1 H0 T0 H1 T1.
    rewrite (handleJson_no_errors body e0 e1 H0 T0 H1 T1).
    destruct (get_total body _ "errors" "error" H0) as [error Herr].
    exists error. split; [done|]. unfold singularError. by rewrite Herr.
Qed.

(** C10.  An aggregated error is returned only when the array read from
    the [errors] property of the body or, when that property is absent or
    otherwise falsy, from its [_errors] property, is not empty; and a body
    whose [errors] property is an empty array and whose [error] property
    is falsy is returned unchanged as data. *)
Theorem C10_aggregate_needs_entries (body : value) :
  (∀ (es : list jsresult) (msg : string),
     handleJson P options c rt body = inr (AggregateError es msg) →
     ∃ items : list value,
       items ≠ []
       ∧ (get body "errors" = inr (VArr items)
          ∨ ∃ e0, get body "errors" = inr e0 ∧ truthy e0 = false
                  ∧ get body "_errors" = inr (VArr items)))
  ∧ (get body "errors" = inr (VArr []) →
     (∀ error, get body "error" = inr error → truthy error = false) →
     handleJson P options c rt body = inr (Plain body)).
Proof.
  split.
  - intros es msg H.
    apply handleJson_aggregate in H as (items & Hne & _ & _ & Hsrc).
    by exists items.
  - intros He Hfalsy. rewrite (handleJson_errors_array body [] He). simpl.
    destruct (get_total body _ "errors" "error" He) as [error Herr].
    unfold singularError. rewrite Herr. simpl.
    by rewrite (Hfalsy error Herr).
Qed.

(** No composer is a scalar type of graphql-js. *)
Lemma isScalarType_composer (t : ComposeOutputType) :
  isScalarType (Composer t) = false.
Proof. reflexivity. Qed.

(** C4, as the code behaves.  When the response text is not parseable as
    JSON, the resolver throws the text itself, whatever the return type of
    the field, also when the field is declared with a scalar type: the
    test [isScalarType(returnType)], meant to return the text for such a
    field, is asked of the composer that [field.type] is, and a composer
    is no [GraphQLScalarType]. *)
Theorem C4_unparseable_response (env root args context info : value)
    (request : URL.t * RequestInit.t) (responseText : string) :
  prepareRequest P options c env root args context info = inr request →
  fetch P request.1 request.2 = inr responseText →
  JSON_parse P responseText = None →
  http_resolve P options c rt env root args context info
  = inl (Thrown (Plain (VStr responseText))).
Proof.
  intros Hp Hf Hj. unfold http_resolve. rewrite Hp. simpl.
  rewrite Hf. simpl. unfold handleResponse. by rewrite Hj.
Qed.

(** The resolver on a response that parses: the parsed body decides. *)
Lemma http_resolve_parsed (env root args context info : value)
    (request : URL.t * RequestInit.t) (responseText : string)
    (responseJson : value) :
  prepareRequest P options c env root args context info = inr request →
  fetch P request.1 request.2 = inr responseText →
  JSON_parse P responseText = Some responseJson →
  http_resolve P options c rt env root args context info
  = handleJson P options c rt responseJson.
Proof.
  intros Hp Hf Hj. unfold http_resolve. rewrite Hp. simpl.
  rewrite Hf. simpl. unfold handleResponse. by rewrite Hj.
Qed.

End Response.

(** C3 as stated fails twice.  A body whose [errors] property is the empty
    array, against a return type without a field [errors], is returned as
    data: no aggregated error is produced.  And a body with entries in
    [errors] and with an [error] property, against a return type that
    declares [errors] but not [error], is not returned unchanged: the
    normalized [error] is. *)
Lemma C3_error_detection_counterexample :
  handleJson Demo.platform (Demo.options [Demo.getUser]) Demo.getUser
    (Demo.objectType ["id"; "name"]) (VObj [("errors", VArr [])])
  = inr (Plain (VObj [("errors", VArr [])]))
  ∧ handleJson Demo.platform (Demo.options [Demo.getUser]) Demo.getUser
      (Demo.objectType ["id"; "errors"])
      (VObj [("errors", VArr [VObj [("message", VStr "x")]]);
             ("error", VObj [("message", VStr "boom")])])
    = inr (ErrorObj "message" (VObj [("message", VStr "boom")])).
Proof. split; reflexivity. Qed.

(** The amended C3 at the body [{ errors: [{ message: "x" }] }], against a
    return type without a field [errors] and against one with it, and at
    the body [{ error: { message: "boom" } }], against a return type
    without a field [error] and against one with it. *)
Lemma C3_error_detection_witness :
  handleJson Demo.platform (Demo.options [Demo.getUser]) Demo.getUser
    (Demo.objectType ["id"; "name"])
    (VObj [("errors", VArr [VObj [("message", VStr "x")]])])
  = inr (AggregateError [ErrorObj "message" (VObj [("message", VStr "x")])]
           "Query.getUser failed")
  ∧ handleJson Demo.platform (Demo.options [Demo.getUser]) Demo.getUser
      (Demo.objectType ["id"; "errors"])
      (VObj [("errors", VArr [VObj [("message", VStr "x")]])])
    = inr (Plain (VObj [("errors", VArr [VObj [("message", VStr "x")]])]))
  ∧ handleJson Demo.platform (Demo.options [Demo.getUser]) Demo.getUser
      (Demo.objectType ["id"; "name"])
      (VObj [("error", VObj [("message", VStr "boom")])])
    = inr (ErrorObj "message" (VObj [("message", VStr "boom")]))
  ∧ handleJson Demo.platform (Demo.options [Demo.getUser]) Demo.getUser
      (Demo.objectType ["id"; "error"])
      (VObj [("error", VObj [("message", VStr "boom")])])
    = inr (Plain (VObj [("error", VObj [("message", VStr "boom")])])).
Proof.
  split; [|split; [|split]].
  - apply (proj1 (C3_error_detection Demo.platform
                    (Demo.options [Demo.getUser]) Demo.getUser
                    (Demo.objectType ["id"; "name"])
                    (VObj [("errors", VArr [VObj [("message", VStr "x")]])]))
             [VObj [("message", VStr "x")]] eq_refl);
      [discriminate | reflexivity].
  - destruct (proj1 (C3_error_detection Demo.platform
                       (Demo.options [Demo.getUser]) Demo.getUser
                       (Demo.objectType ["id"; "errors"])
                       (VObj [("errors",
                               VArr [VObj [("message", VStr "x")]])]))
                [VObj [("message", VStr "x")]] eq_refl) as [_ H].
    destruct (H (or_introl eq_refl)) as (error & Herr & Hres).
    injection Herr as <-. exact Hres.
  - destruct (proj2 (C3_error_detection Demo.platform
                       (Demo.options [Demo.getUser]) Demo.getUser
                       (Demo.objectType ["id"; "name"])
                       (VObj [("error", VObj [("message", VStr "boom")])]))
                VUndefined VUndefined eq_refl eq_refl eq_refl eq_refl)
      as (error & Herr & Hres).
    injection Herr as <-. exact Hres.
  - destruct (proj2 (C3_error_detection Demo.platform
                       (Demo.options [Demo.getUser]) Demo.getUser
                       (Demo.objectType ["id"; "error"])
                       (VObj [("error", VObj [("message", VStr "boom")])]))
                VUndefined VUndefined eq_refl eq_refl eq_refl eq_refl)
      as (error & Herr & Hres).
    injection Herr as <-. exact Hres.
Defined.

(** C10 at the body [{ errors: [], _errors: [{ message: "x" }] }]. *)
Lemma C10_aggregate_needs_entries_witness :
  handleJson Demo.platform (Demo.options [Demo.getUser]) Demo.getUser
    (Demo.objectType ["id"; "name"])
    (VObj [("errors", VArr []);
           ("_errors", VArr [VObj [("message", VStr "x")]])])
  = inr (Plain (VObj [("errors", VArr []);
                      ("_errors", VArr [VObj [("message", VStr "x")]])])).
Proof.
  apply (C10_aggregate_needs_entries Demo.platform
           (Demo.options [Demo.getUser]) Demo.getUser
           (Demo.objectType ["id"; "name"])); [reflexivity|].
  intros error [= <-]. reflexivity.
Defined.

(** C4 at the text [plain text] and a field declared with the scalar type
    [String]: the text is thrown, not returned. *)
Lemma C4_unparseable_response_witness :
  http_resolve Demo.platform (Demo.options [Demo.getUser]) Demo.getUser
    (ScalarTypeComposer "String") (VObj []) VNull Demo.noArgs VNull VNull
  = inl (Thrown (Plain (VStr "plain text"))).
Proof.
  exact (C4_unparseable_response Demo.platform
           (Demo.options [Demo.getUser]) Demo.getUser
           (ScalarTypeComposer "String")
           (VObj []) VNull Demo.noArgs VNull VNull
           _ "plain text" eq_refl eq_refl eq_refl).
Defined.

End ResponseFacts.

(* ===================================================================== *)
(** * Properties of the schema synthesizer *)
(* ===================================================================== *)

Module SynthesisFacts.
Import Js Loader StringFacts.

#[local] Arguments String.append !_ _ / : simpl nomatch.

(** ** The effect monad *)

Lemma bind_inl {A B} (m : Eff A) (f : A → Eff B) (t : list event)
    (e : thrown) :
  m = (t, inl e) → m ≫= f = (t, inl e).
Proof. by intros ->. Qed.

Lemma bind_inr {A B} (m : Eff A) (f : A → Eff B) (t : list event) (a : A) :
  m = (t, inr a) → m ≫= f = (t ++ (f a).1, (f a).2).
Proof. by intros ->. Qed.

(** ** The composite schema *)

Lemma fieldSchema_setField (name rootTitle fieldName : string) (v : value)
    (s : gmap string RootDefinition) :
  fieldSchema name fieldName (setField name rootTitle fieldName v s) = Some v.
Proof.
  unfold fieldSchema, setField. rewrite lookup_insert_eq. simpl.
  by rewrite lookup_insert_eq.
Qed.

Lemma fieldSchema_setField_name (name name' rootTitle f f' : string)
    (v : value) (s : gmap string RootDefinition) :
  name' ≠ name →
  fieldSchema name f (setField name' rootTitle f' v s) = fieldSchema name f s.
Proof.
  intros Hne. unfold fieldSchema, setField. by rewrite lookup_insert_ne.
Qed.

Lemma fieldSchema_setField_field (name rootTitle f f' : string)
    (v : value) (s : gmap string RootDefinition) :
  f' ≠ f →
  fieldSchema name f (setField name rootTitle f' v s) = fieldSchema name f s.
Proof.
  intros Hne. unfold fieldSchema, setField, rootDefinition.
  rewrite lookup_insert_eq. simpl. rewrite lookup_insert_ne by done.
  by destruct (s !! name).
Qed.

Lemma fieldSchema_touch (name name' rootTitle f : string)
    (s : gmap string RootDefinition) :
  fieldSchema name f (touch name' rootTitle s) = fieldSchema name f s.
Proof.
  unfold fieldSchema, touch, rootDefinition.
  destruct (decide (name' = name)) as [->|Hne].
  - rewrite lookup_insert_eq. by destruct (s !! name).
  - by rewrite lookup_insert_ne.
Qed.

(** ** The two root definitions of an operation never collide *)

(** Lower-casing leaves no capital I. *)
Lemma lower_char_not_I (x : ascii) : Ascii.eqb (lower_char x) "I"%char = false.
Proof. by destruct x as [[] [] [] [] [] [] [] []]. Qed.

Lemma toLowerCase_no_I (s : string) : includes (toLowerCase s) "I"%char = false.
Proof.
  induction s as [|x s IH]; simpl; [done|].
  by rewrite lower_char_not_I, IH.
Qed.

Lemma operationType_no_I (c : OperationConfig.t) :
  includes (operationType (getOperationMetadata c)) "I"%char = false.
Proof.
  unfold getOperationMetadata.
  destruct (isPubSubOperationConfig c); simpl; [done|].
  apply toLowerCase_no_I.
Qed.

(** The name of an input root is the operation type of no operation. *)
Lemma input_root_distinct (c c' : OperationConfig.t) :
  operationType (getOperationMetadata c') +:+ "Input"
  ≠ operationType (getOperationMetadata c).
Proof.
  intros H. pose proof (operationType_no_I c) as Hc.
  rewrite <- H, includes_append in Hc.
  apply orb_false_iff in Hc as [_ Hc]. done.
Qed.

(** ** The two sides of an operation *)

Section Sides.

Context (P : Platform).

(** The response side either yields a schema, no consulted sample having
    failed, or throws the error of its unreadable sample; it never calls
    the pipeline. *)
Lemma responseSide_result (c : OperationConfig.t) :
  (∃ t v, responseSide P c = (t, inr v) ∧ quiet t
          ∧ ∀ m, ¬ responseSampleFails P c m)
  ∨ (∃ t m, responseSide P c
            = (t, inl (Thrown (Error (responseSampleError m))))
            ∧ quiet t ∧ responseSampleFails P c m).
Proof.
  unfold responseSide, responseSampleFails.
  destruct (truthy (read (OperationConfig.responseSchema c))) eqn:Hs.
  { left. eexists _, _. split; [done|]. split; [constructor|].
    intros m (? & _). done. }
  destruct (truthy (read (OperationConfig.responseSample c))) eqn:Hp.
  2:{ left. eexists _, _. split; [done|]. split; [constructor|].
      intros m (_ & ? & _). done. }
  unfold readSample.
  destruct (readFileOrUrl P (read (OperationConfig.responseSample c)))
    as [m|content] eqn:Hr.
  - right. exists [ReadFileOrUrl (read (OperationConfig.responseSample c))], m.
    split; [done|]. split; [|done]. by repeat constructor.
  - left. eexists _, _. split; [done|]. split; [by repeat constructor|].
    intros m (_ & _ & ?). congruence.
Qed.

Lemma requestSide_result (c : OperationConfig.t) :
  (∃ t v, requestSide P c = (t, inr v) ∧ quiet t
          ∧ ∀ m, ¬ requestSampleFails P c m)
  ∨ (∃ t m, requestSide P c
            = (t, inl (Thrown (Error (requestSampleError P c m))))
            ∧ quiet t ∧ requestSampleFails P c m).
Proof.
  unfold requestSide, requestSampleFails.
  destruct (truthy (read (OperationConfig.requestSchema c))) eqn:Hs.
  { left. eexists _, _. split; [done|]. split; [constructor|].
    intros m (? & _). done. }
  destruct (truthy (read (OperationConfig.requestSample c))) eqn:Hp.
  2:{ left. eexists _, _. split; [done|]. split; [constructor|].
      intros m (_ & ? & _). done. }
  unfold readSample.
  destruct (readFileOrUrl P (read (OperationConfig.requestSample c)))
    as [m|content] eqn:Hr.
  - right. exists [ReadFileOrUrl (read (OperationConfig.requestSample c))], m.
    split; [done|]. split; [|done]. by repeat constructor.
  - left. eexists _, _. split; [done|]. split; [by repeat constructor|].
    intros m (_ & _ & ?). congruence.
Qed.

(** The loop body either extends the composite schema, no consulted sample
    of the operation having failed, or throws the error of an unreadable
    sample of the operation. *)
Lemma addOperation_result (s : gmap string RootDefinition)
    (c : OperationConfig.t) :
  (∃ t s', addOperation P s c = (t, inr s') ∧ quiet t
           ∧ (∀ m, ¬ responseSampleFails P c m)
           ∧ (∀ m, ¬ requestSampleFails P c m))
  ∨ (∃ t message, addOperation P s c = (t, inl (Thrown (Error message)))
                  ∧ quiet t ∧ sampleError P c message).
Proof.
  unfold addOperation.
  destruct (responseSide_result c)
    as [(t1 & v & H1 & Q1 & N1) | (t1 & m & H1 & Q1 & F1)].
  2:{ right. exists t1, (responseSampleError m).
      rewrite (bind_inl _ _ _ _ H1). split; [done|]. split; [done|].
      exists m. by left. }
  rewrite (bind_inr _ _ _ _ H1). cbv beta.
  destruct (requestSide_result c)
    as [(t2 & r & H2 & Q2 & N2) | (t2 & m & H2 & Q2 & F2)].
  2:{ right. exists (t1 ++ t2), (requestSampleError P c m).
      rewrite (bind_inl _ _ _ _ H2). simpl. split; [done|].
      split; [by apply Forall_app|]. exists m. by right. }
  left. rewrite (bind_inr _ _ _ _ H2).
  destruct r as [schema|]; simpl; rewrite app_nil_r;
    eexists _, _; (split; [done|]); (split; [by apply Forall_app|]); done.
Qed.

(** The loop over a list in which the consulted sample of some operation
    cannot be read throws the error of such a sample of some operation of
    the list, and calls no pipeline stage. *)
Lemma addOperations_fails (operations : list OperationConfig.t)
    (s : gmap string RootDefinition) :
  (∃ c m, c ∈ operations
          ∧ (responseSampleFails P c m ∨ requestSampleFails P c m)) →
  ∃ t c' message,
    addOperations P s operations = (t, inl (Thrown (Error message)))
    ∧ quiet t ∧ c' ∈ operations ∧ sampleError P c' message.
Proof.
  revert s. induction operations as [|c0 ops IH]; intros s (c & m & Hin & Hf).
  { by apply elem_of_nil in Hin. }
  simpl.
  destruct (addOperation_result s c0)
    as [(t & s' & H & Q & N1 & N2) | (t & message & H & Q & E)].
  - rewrite (bind_inr _ _ _ _ H).
    apply elem_of_cons in Hin as [-> | Hin].
    { destruct Hf as [Hf|Hf]; [by apply N1 in Hf | by apply N2 in Hf]. }
    destruct (IH s' (ex_intro _ c (ex_intro _ m (conj Hin Hf))))
      as (t' & c' & message & H' & Q' & Hin' & E').
    exists (t ++ t'), c', message. rewrite H'. simpl.
    split; [done|]. split; [by apply Forall_app|].
    split; [by right | done].
  - exists t, c0, message. rewrite (bind_inl _ _ _ _ H).
    split; [done|]. split; [done|]. split; [by left | done].
Qed.

(** What a loop body that does not throw leaves behind. *)
Lemma addOperation_ok (s s' : gmap string RootDefinition)
    (c : OperationConfig.t) (t : list event) :
  addOperation P s c = (t, inr s') →
  let md := getOperationMetadata c in
  let rootTitle := RootTypeName_string (rootTypeName md) in
  ∃ (response : value) (request : option value),
    (responseSide P c).2 = inr response
    ∧ t = (responseSide P c).1 ++ (requestSide P c).1
    ∧ s' = (match request with
            | Some schema =>
                setField (operationType md +:+ "Input") (rootTitle +:+ "Input")
                  (fieldName md) schema
            | None => fun x => x
            end)
             (touch (operationType md +:+ "Input") (rootTitle +:+ "Input")
                (setField (operationType md) rootTitle (fieldName md) response
                   (touch (operationType md) rootTitle s))).
Proof.
  unfold addOperation, mbind, Eff_bind.
  destruct (responseSide P c) as [t1 [e1|response]]; simpl;
    [intros H; discriminate H|].
  destruct (requestSide P c) as [t2 [e2|request]]; simpl;
    [intros H; discriminate H|].
  destruct request as [schema|]; simpl; rewrite app_nil_r;
    intros [= <- <-].
  - by exists response, (Some schema).
  - by exists response, None.
Qed.

(** An operation leaves the response property of an operation with another
    type or another field name alone. *)
Lemma addOperation_keeps (s s' : gmap string RootDefinition)
    (c c' : OperationConfig.t) (t : list event) (v : value) :
  operationType (getOperationMetadata c')
    ≠ operationType (getOperationMetadata c)
  ∨ fieldName (getOperationMetadata c') ≠ fieldName (getOperationMetadata c) →
  addOperation P s c' = (t, inr s') →
  fieldSchema (operationType (getOperationMetadata c))
    (fieldName (getOperationMetadata c)) s = Some v →
  fieldSchema (operationType (getOperationMetadata c))
    (fieldName (getOperationMetadata c)) s' = Some v.
Proof.
  intros Hne Hadd Hv.
  apply addOperation_ok in Hadd as (response & request & _ & _ & ->).
  assert (fieldSchema (operationType (getOperationMetadata c))
            (fieldName (getOperationMetadata c))
            (setField (operationType (getOperationMetadata c'))
               (RootTypeName_string (rootTypeName (getOperationMetadata c')))
               (fieldName (getOperationMetadata c')) response
               (touch (operationType (getOperationMetadata c'))
                  (RootTypeName_string
                     (rootTypeName (getOperationMetadata c'))) s))
          = Some v) as Hresp.
  { destruct (decide (operationType (getOperationMetadata c')
                      = operationType (getOperationMetadata c))) as [E|E].
    - destruct Hne as [Hne|Hne]; [done|].
      rewrite E, fieldSchema_setField_field by done.
      by rewrite fieldSchema_touch.
    - rewrite fieldSchema_setField_name by done.
      by rewrite fieldSchema_touch. }
  destruct request as [schema|].
  - rewrite fieldSchema_setField_name by apply input_root_distinct.
    by rewrite fieldSchema_touch.
  - by rewrite fieldSchema_touch.
Qed.

Lemma addOperations_keeps (operations : list OperationConfig.t)
    (s s' : gmap string RootDefinition) (c : OperationConfig.t)
    (t : list event) (v : value) :
  (∀ c', c' ∈ operations →
     operationType (getOperationMetadata c')
       ≠ operationType (getOperationMetadata c)
     ∨ fieldName (getOperationMetadata c')
       ≠ fieldName (getOperationMetadata c)) →
  addOperations P s operations = (t, inr s') →
  fieldSchema (operationType (getOperationMetadata c))
    (fieldName (getOperationMetadata c)) s = Some v →
  fieldSchema (operationType (getOperationMetadata c))
    (fieldName (getOperationMetadata c)) s' = Some v.
Proof.
  revert s t. induction operations as [|c0 ops IH]; intros s t Hne; simpl.
  { by intros [= <- <-]. }
  unfold mbind, Eff_bind.
  destruct (addOperation P s c0) as [t0 [e|s0]] eqn:H0; simpl;
    [intros H; discriminate H|].
  destruct (addOperations P s0 ops) as [t1 r1] eqn:H1. simpl.
  intros [= <- ->] Hv.
  apply (IH s0 t1); [intros c' Hc'; apply Hne; by right | done |].
  apply (addOperation_keeps s s0 c c0 t0 v); [apply Hne; by left | done..].
Qed.

(** The loop over a list, cut in two. *)
Lemma addOperations_app (a b : list OperationConfig.t)
    (s s' : gmap string RootDefinition) (t : list event) :
  addOperations P s (a ++ b) = (t, inr s') →
  ∃ t1 s1 t2, addOperations P s a = (t1, inr s1)
              ∧ addOperations P s1 b = (t2, inr s')
              ∧ t = (t1 ++ t2)%list.
Proof.
  revert s t. induction a as [|c0 a IH]; intros s t; simpl.
  { intros H. by exists [], s, t. }
  unfold mbind, Eff_bind.
  destruct (addOperation P s c0) as [t0 [e|s0]] eqn:H0; simpl;
    [intros H; discriminate H|].
  destruct (addOperations P s0 (a ++ b)) as [t1 r1] eqn:H1. simpl.
  intros [= <- ->].
  destruct (IH s0 t1 H1) as (u1 & s1 & u2 & Ha & Hb & ->).
  exists (t0 ++ u1), s1, u2. rewrite Ha. simpl.
  split; [done|]. split; [done|]. by rewrite app_assoc.
Qed.

(** An operation whose consulted response sample cannot be read throws
    the error of that sample right after the read. *)
Lemma addOperation_response_fails (s : gmap string RootDefinition)
    (c : OperationConfig.t) (m : string) :
  responseSampleFails P c m →
  addOperation P s c
  = ([ReadFileOrUrl (read (OperationConfig.responseSample c))],
     inl (Thrown (Error ("responseSample - " +:+ m)))).
Proof.
  intros (Hs & Hp & Hr).
  unfold addOperation, responseSide, readSample. by rewrite Hs, Hp, Hr.
Qed.

(** An operation whose response side is built and whose consulted request
    sample cannot be read throws the error of that sample. *)
Lemma addOperation_request_fails (s : gmap string RootDefinition)
    (c : OperationConfig.t) (m : string) :
  (∀ m', ¬ responseSampleFails P c m') →
  requestSampleFails P c m →
  ∃ t, addOperation P s c
       = (t, inl (Thrown (Error
                  ("requestSample:"
                   +:+ ToString P (read (OperationConfig.requestSample c))
                   +:+ " cannot be read - " +:+ m))))
       ∧ quiet t.
Proof.
  intros Hresp (Hs & Hp & Hr).
  destruct (responseSide_result c)
    as [(t1 & v & H1 & Q1 & _) | (t1 & m' & _ & _ & F)];
    [|by apply Hresp in F].
  unfold addOperation. rewrite (bind_inr _ _ _ _ H1). cbv beta.
  assert (requestSide P c
          = ([ReadFileOrUrl (read (OperationConfig.requestSample c))],
             inl (Thrown (Error
                    ("requestSample:"
                     +:+ ToString P (read (OperationConfig.requestSample c))
                     +:+ " cannot be read - " +:+ m))))) as H2.
  { unfold requestSide, readSample. by rewrite Hs, Hp, Hr. }
  rewrite (bind_inl _ _ _ _ H2). simpl. eexists. split; [done|].
  apply Forall_app. split; [done | by repeat constructor].
Qed.

(** The loop over operations whose consulted samples can all be read does
    not throw, and calls no pipeline stage. *)
Lemma addOperations_readable (operations : list OperationConfig.t)
    (s : gmap string RootDefinition) :
  (∀ c m, c ∈ operations →
          ¬ responseSampleFails P c m ∧ ¬ requestSampleFails P c m) →
  ∃ t s', addOperations P s operations = (t, inr s') ∧ quiet t.
Proof.
  revert s. induction operations as [|c ops IH]; intros s H; simpl.
  { exists [], s. split; [done | constructor]. }
  destruct (addOperation_result s c)
    as [(t & s1 & Ha & Q & _) | (t & message & _ & _ & m & E)].
  - destruct (IH s1) as (t' & s' & Ha' & Q').
    { intros c' m' Hin. apply H. by right. }
    exists (t ++ t'), s'. rewrite (bind_inr _ _ _ _ Ha), Ha'. simpl.
    split; [done | by apply Forall_app].
  - exfalso. destruct (H c m (list_elem_of_here _ _)) as [N1 N2].
    destruct E as [[F _] | [F _]]; [by apply N1 | by apply N2].
Qed.

(** The loop over a list, after the loop over its first part. *)
Lemma addOperations_app_eq (a b : list OperationConfig.t)
    (s s1 : gmap string RootDefinition) (t1 : list event) :
  addOperations P s a = (t1, inr s1) →
  addOperations P s (a ++ b)
  = (t1 ++ (addOperations P s1 b).1, (addOperations P s1 b).2).
Proof.
  revert s t1. induction a as [|c0 a IH]; intros s t1; simpl.
  { intros [= <- <-]. by destruct (addOperations P s b). }
  unfold mbind, Eff_bind.
  destruct (addOperation P s c0) as [t0 [e|s0]] eqn:H0; simpl;
    [intros H; discriminate H|].
  destruct (addOperations P s0 a) as [u1 r1] eqn:H1. simpl.
  intros [= <- ->]. rewrite (IH s0 u1 H1). simpl. by rewrite app_assoc.
Qed.

(** C8, amended.  When a sample that is read cannot be read or parsed (the
    response sample of an operation without a response schema, or the
    request sample of an operation without a request schema), schema
    synthesis fails with an [Error] whose message is tagged with the name
    of the configuration property, not with the field name of the
    operation, and carries the message of the original cause: it is
    [responseSample - ] or [requestSample:], the sample and [ cannot be
    read - ], followed by the message of the failed read; and no stage of
    the dereference, heal and re-reference pipeline is called.  The error
    is that of the first such sample in the order of the operations. *)
Theorem C8_unreadable_sample (options : Options.t) :
  ((∃ c m, c ∈ Options.operations options
           ∧ (responseSampleFails P c m ∨ requestSampleFails P c m)) →
   ∃ t c' message,
     buildFinalJSONSchema P options = (t, inl (Thrown (Error message)))
     ∧ c' ∈ Options.operations options
     ∧ sampleError P c' message
     ∧ quiet t)
  ∧ (∀ before c after m,
       Options.operations options = before ++ c :: after →
       (∀ c' m', c' ∈ before →
                 ¬ responseSampleFails P c' m'
                 ∧ ¬ requestSampleFails P c' m') →
       (responseSampleFails P c m →
        ∃ t, buildFinalJSONSchema P options
             = (t, inl (Thrown (Error ("responseSample - " +:+ m))))
             ∧ quiet t)
       ∧ ((∀ m', ¬ responseSampleFails P c m') →
          requestSampleFails P c m →
          ∃ t, buildFinalJSONSchema P options
               = (t, inl (Thrown (Error
                          ("requestSample:"
                           +:+ ToString P
                                 (read (OperationConfig.requestSample c))
                           +:+ " cannot be read - " +:+ m))))
               ∧ quiet t)).
Proof.
  split.
  - intros H.
    destruct (addOperations_fails (Options.operations options) ∅ H)
      as (t & c' & message & Hadd & Q & Hin & E).
    exists t, c', message. unfold buildFinalJSONSchema.
    by rewrite (bind_inl _ _ _ _ Hadd).
  - intros before c after m Hops Hbefore.
    destruct (addOperations_readable before ∅ Hbefore)
      as (t1 & s1 & H1 & Q1).
    assert (∀ t e, addOperation P s1 c = (t, inl e) → quiet t →
                   buildFinalJSONSchema P options = (t1 ++ t, inl e)
                   ∧ quiet (t1 ++ t)) as Hthrow.
    { intros t e Hc Q. unfold buildFinalJSONSchema.
      rewrite Hops, (addOperations_app_eq _ _ _ _ _ H1). simpl.
      rewrite (bind_inl _ _ _ _ Hc). simpl.
      split; [done | by apply Forall_app]. }
    split.
    + intros Hf. eexists.
      apply (Hthrow _ _ (addOperation_response_fails s1 c m Hf)).
      by repeat constructor.
    + intros Hresp Hf.
      destruct (addOperation_request_fails s1 c m Hresp Hf) as (t & Hc & Q).
      eexists. by apply (Hthrow _ _ Hc).
Qed.

(** What the loop body returns is what its run leaves. *)
Lemma runOperation_result (s : gmap string RootDefinition)
    (c : OperationConfig.t) :
  addOperation P s c = run_result (runOperation P s c).
Proof.
  unfold addOperation, runOperation, run_result, mbind, Eff_bind.
  destruct (responseSide P c) as [t1 [e1|response]]; simpl; [done|].
  destruct (requestSide P c) as [t2 [e2|[schema|]]]; simpl;
    by rewrite ?app_nil_r.
Qed.

(** C9.  For an operation with a response schema, the response side is
    exactly [{ $ref: responseSchema }], obtained without a call of the
    file reader or of sample inference, and the loop body stores it at
    [properties[operationType].properties[fieldName]]: it is there when
    the body ends, also when the request side throws afterwards; so when
    the request sample, if one is consulted, can be read, the body returns
    a composite schema with that property; and it is the property of the
    composite schema at the end of the loop, when the other samples can be
    read and no later operation has both the same operation type and the
    same field name. *)
Theorem C9_response_schema_ref (c : OperationConfig.t) :
  truthy (read (OperationConfig.responseSchema c)) = true →
  responseSide P c
  = ([], inr (VObj [("$ref", read (OperationConfig.responseSchema c))]))
  ∧ (∀ s,
       addOperation P s c = run_result (runOperation P s c)
       ∧ run_events (runOperation P s c) = (requestSide P c).1
       ∧ fieldSchema (operationType (getOperationMetadata c))
           (fieldName (getOperationMetadata c))
           (run_properties (runOperation P s c))
         = Some (VObj [("$ref", read (OperationConfig.responseSchema c))]))
  ∧ (∀ s,
       (∀ m, ¬ requestSampleFails P c m) →
       ∃ t s',
         addOperation P s c = (t, inr s')
         ∧ fieldSchema (operationType (getOperationMetadata c))
             (fieldName (getOperationMetadata c)) s'
           = Some (VObj [("$ref", read (OperationConfig.responseSchema c))]))
  ∧ (∀ before after,
       (∀ c' m, c' ∈ before ++ after →
                ¬ responseSampleFails P c' m ∧ ¬ requestSampleFails P c' m) →
       (∀ m, ¬ requestSampleFails P c m) →
       (∀ c', c' ∈ after →
          operationType (getOperationMetadata c')
            ≠ operationType (getOperationMetadata c)
          ∨ fieldName (getOperationMetadata c')
            ≠ fieldName (getOperationMetadata c)) →
       ∃ t s',
         addOperations P ∅ (before ++ c :: after) = (t, inr s')
         ∧ fieldSchema (operationType (getOperationMetadata c))
             (fieldName (getOperationMetadata c)) s'
           = Some (VObj [("$ref", read (OperationConfig.responseSchema c))])).
Proof.
  intros Hs.
  assert (responseSide P c
          = ([], inr (VObj [("$ref",
                             read (OperationConfig.responseSchema c))])))
    as Hside by (unfold responseSide; by rewrite Hs).
  assert (operationType (getOperationMetadata c) +:+ "Input"
          ≠ operationType (getOperationMetadata c)) as Hne
    by apply input_root_distinct.
  assert (∀ s,
            run_events (runOperation P s c) = (requestSide P c).1
            ∧ fieldSchema (operationType (getOperationMetadata c))
                (fieldName (getOperationMetadata c))
                (run_properties (runOperation P s c))
              = Some (VObj [("$ref",
                             read (OperationConfig.responseSchema c))]))
    as Hrun.
  { intros s. unfold runOperation. rewrite Hside.
    destruct (requestSide P c) as [t2 [e2|[schema|]]]; simpl;
      (split; [done|]).
    - rewrite fieldSchema_touch. apply fieldSchema_setField.
    - rewrite fieldSchema_setField_name by done.
      rewrite fieldSchema_touch. apply fieldSchema_setField.
    - rewrite fieldSchema_touch. apply fieldSchema_setField. }
  assert (∀ s, (∀ m, ¬ requestSampleFails P c m) →
            ∃ t s',
              addOperation P s c = (t, inr s')
              ∧ fieldSchema (operationType (getOperationMetadata c))
                  (fieldName (getOperationMetadata c)) s'
                = Some (VObj [("$ref",
                               read (OperationConfig.responseSchema c))]))
    as Hadd.
  { intros s Hreq. destruct (Hrun s) as [_ Hf].
    rewrite (runOperation_result s c). unfold run_result.
    destruct (run_thrown (runOperation P s c)) as [e|] eqn:Ht;
      [|by eexists _, _].
    exfalso. revert Ht. unfold runOperation. rewrite Hside.
    destruct (requestSide_result c)
      as [(t2 & r & H2 & _ & _) | (t2 & m & _ & _ & F)];
      [|by apply Hreq in F].
    rewrite H2. by destruct r. }
  split; [done|]. split; [|split; [done|]].
  { intros s. split; [apply runOperation_result | apply Hrun]. }
  intros before after Hread Hreq Hafter.
  destruct (addOperations_readable before ∅) as (t1 & s1 & H1 & _).
  { intros c' m Hin. apply Hread. apply elem_of_app. by left. }
  destruct (Hadd s1 Hreq) as (t0 & s0 & H0 & Hf0).
  destruct (addOperations_readable after s0) as (t2 & s2 & H2 & _).
  { intros c' m Hin. apply Hread. apply elem_of_app. by right. }
  exists (t1 ++ t0 ++ t2), s2. split.
  - rewrite (addOperations_app_eq _ _ _ _ _ H1). simpl.
    rewrite (bind_inr _ _ _ _ H0), H2. done.
  - by apply (addOperations_keeps after s0 s2 c t2).
Qed.

End Sides.

(** C8 as stated fails: the operations [getInvoice] and [listInvoices]
    differ in their field name only, and synthesis fails for both with the
    same error, whose message names the property [responseSample] and the
    cause but no field. *)
Lemma C8_field_name_counterexample :
  OperationConfig.field Demo.getInvoice = "getInvoice"
  ∧ OperationConfig.field Demo.listInvoices = "listInvoices"
  ∧ buildFinalJSONSchema Demo.platform (Demo.options [Demo.getInvoice])
    = ([ReadFileOrUrl (VStr "./missing.json")],
       inl (Thrown (Error
              "responseSample - ENOENT: no such file or directory")))
  ∧ buildFinalJSONSchema Demo.platform (Demo.options [Demo.listInvoices])
    = ([ReadFileOrUrl (VStr "./missing.json")],
       inl (Thrown (Error
              "responseSample - ENOENT: no such file or directory"))).
Proof. repeat split. Qed.

(** A sample is read only when its schema is absent: the response sample
    of [getOrder] cannot be read, yet synthesis runs the whole pipeline. *)
Example sample_behind_schema_not_read :
  readFileOrUrl Demo.platform
    (read (OperationConfig.responseSample Demo.getOrder))
  = inl "ENOENT: no such file or directory"
  ∧ (buildFinalJSONSchema Demo.platform (Demo.options [Demo.getOrder])).1
    = [DereferenceObject; HealJSONSchema; ReferenceJSONSchema].
Proof. split; [reflexivity | vm_compute; reflexivity]. Qed.

(** The amended C8 at a list whose second operation has an unreadable
    response sample and no response schema, and at a list whose second
    operation has an unreadable request sample. *)
Lemma C8_unreadable_sample_witness :
  (∃ t, buildFinalJSONSchema Demo.platform
          (Demo.options [Demo.getProfile; Demo.getInvoice])
        = (t, inl (Thrown (Error
                     "responseSample - ENOENT: no such file or directory")))
        ∧ quiet t)
  ∧ (∃ t, buildFinalJSONSchema Demo.platform
            (Demo.options [Demo.getProfile; Demo.addInvoice])
          = (t, inl (Thrown (Error
                       ("requestSample:" +:+ "./missing.json"
                        +:+ " cannot be read - "
                        +:+ "ENOENT: no such file or directory"))))
          ∧ quiet t).
Proof.
  assert (∀ c' m', c' ∈ [Demo.getProfile] →
                   ¬ responseSampleFails Demo.platform c' m'
                   ∧ ¬ requestSampleFails Demo.platform c' m') as Hbefore.
  { intros c' m' Hin. apply list_elem_of_singleton in Hin as ->.
    split; [intros (_ & _ & H) | intros (_ & H & _)]; discriminate H. }
  split.
  - apply (proj2 (C8_unreadable_sample Demo.platform
                    (Demo.options [Demo.getProfile; Demo.getInvoice]))
             [Demo.getProfile] Demo.getInvoice []
             "ENOENT: no such file or directory" eq_refl Hbefore).
    repeat split.
  - apply (proj2 (C8_unreadable_sample Demo.platform
                    (Demo.options [Demo.getProfile; Demo.addInvoice]))
             [Demo.getProfile] Demo.addInvoice []
             "ENOENT: no such file or directory" eq_refl Hbefore).
    + intros m' (_ & H & _). discriminate H.
    + repeat split.
Defined.

(** C9 at an operation with the response schema [./order.schema.json]:
    added to the empty composite schema, and with an unreadable request
    sample, where the body throws after it has stored the property. *)
Lemma C9_response_schema_ref_witness :
  responseSide Demo.platform Demo.getOrder
  = ([], inr (VObj [("$ref", VStr "./order.schema.json")]))
  ∧ (∃ t s',
       addOperation Demo.platform ∅ Demo.getOrder = (t, inr s')
       ∧ fieldSchema "query" "getOrder" s'
         = Some (VObj [("$ref", VStr "./order.schema.json")]))
  ∧ run_thrown (runOperation Demo.platform ∅ Demo.putOrder)
    = Some (Thrown (Error
              ("requestSample:" +:+ "./missing.json"
               +:+ " cannot be read - "
               +:+ "ENOENT: no such file or directory")))
  ∧ fieldSchema "mutation" "putOrder"
      (run_properties (runOperation Demo.platform ∅ Demo.putOrder))
    = Some (VObj [("$ref", VStr "./order.schema.json")]).
Proof.
  destruct (C9_response_schema_ref Demo.platform Demo.getOrder eq_refl)
    as (Hside & _ & Hadd & _).
  destruct (C9_response_schema_ref Demo.platform Demo.putOrder eq_refl)
    as (_ & Hrun & _ & _).
  split; [exact Hside|]. split.
  - apply (Hadd ∅). intros m (_ & H & _). discriminate H.
  - split; [reflexivity|]. exact (proj2 (proj2 (Hrun ∅))).
Defined.

End SynthesisFacts.

(* ===================================================================== *)
(** * Further properties of the placeholder substitution *)
(* ===================================================================== *)

Module ConfigMore.
Import Js Config StringFacts ConfigFacts.

#[local] Arguments String.append !_ _ / : simpl nomatch.

(** Without a closing brace there is no match. *)
Lemma capture_no_brace (s : string) :
  includes s "}"%char = false → capture s = None.
Proof.
  induction s as [|c s IH]; simpl; [done|]. intros H.
  apply orb_false_iff in H as [Hc Hs].
  rewrite Hc. destruct (line_terminator c); [done|]. by rewrite (IH Hs).
Qed.

Lemma replace_from_no_dollar (f : string → string) (n : nat) (s : string) :
  includes s "$"%char = false → replace_from n f s = s.
Proof.
  revert s. induction n as [|n IH]; intros s H; [done|].
  destruct s as [|c r]; [done|]. simpl in *.
  apply orb_false_iff in H as [Hc Hr]. by rewrite Hc, (IH r Hr).
Qed.

Lemma replace_from_no_brace (f : string → string) (n : nat) (s : string) :
  includes s "}"%char = false → replace_from n f s = s.
Proof.
  revert s. induction n as [|n IH]; intros s H; [done|].
  destruct s as [|c r]; [done|]. simpl in H.
  apply orb_false_iff in H as [Hc Hr].
  cbn [replace_from]. rewrite (IH r Hr).
  destruct (Ascii.eqb c "$"%char); [|done].
  destruct r as [|c2 r2]; [done|].
  destruct (Ascii.eqb c2 "{"%char); [|done].
  simpl in Hr. apply orb_false_iff in Hr as [_ Hr2].
  by rewrite (capture_no_brace r2 Hr2).
Qed.

(** A content without a dollar sign, or without a closing brace, holds no
    placeholder: the loader passes it on unchanged, whatever the
    environment. *)
Theorem loader_content_unchanged (env : string → option string)
    (content : string) :
  includes content "$"%char = false ∨ includes content "}"%char = false →
  loader_content env content = content.
Proof.
  unfold loader_content, replace. intros [H|H].
  - by apply replace_from_no_dollar.
  - by apply replace_from_no_brace.
Qed.

Lemma loader_content_unchanged_witness :
  loader_content (fun _ => Some "x") "sources: [] # costs 5$"
  = "sources: [] # costs 5$"
  ∧ loader_content (fun _ => Some "x") "name: ${HOST"
    = "name: ${HOST".
Proof.
  split.
  - apply loader_content_unchanged. right. reflexivity.
  - apply loader_content_unchanged. right. reflexivity.
Defined.

(** Placeholders are replaced from left to right and a replacement is not
    scanned again: a content whose first dollar sign opens a placeholder
    yields the text before it, the value of the placeholder, and the
    substitution of the text after it. *)
Theorem loader_content_first_placeholder (env : string → option string)
    (pre variable post : string) :
  includes pre "$"%char = false →
  placeholder_text variable = true →
  loader_content env (pre +:+ "${" +:+ variable +:+ String "}"%char post)
  = pre +:+ substitute env variable +:+ loader_content env post.
Proof. intros Hpre Hv. unfold loader_content. by apply replace_inside. Qed.

Lemma loader_content_first_placeholder_witness :
  loader_content (fun k => if String.eqb k "A" then Some "${B}" else None)
    "x: ${A} y: ${B:1}"
  = "x: " +:+ "${B}" +:+ " y: 1".
Proof.
  exact (loader_content_first_placeholder
           (fun k => if String.eqb k "A" then Some "${B}" else None)
           "x: " "A" " y: ${B:1}" eq_refl eq_refl).
Defined.

(** The value of a placeholder with a default: the binding of its name
    when that is a non-empty string; for a name bound to the empty string,
    the default; for a name without a binding, the text of what
    [process.env] inherits from [Object.prototype] under that name when
    there is such a property, and the default otherwise. *)
Theorem placeholder_binding_or_default (env : string → option string)
    (name dflt : string) :
  includes name ":"%char = false →
  placeholder_text name = true →
  placeholder_text dflt = true →
  loader_content env ("${" +:+ name +:+ ":" +:+ dflt +:+ "}")
  = match env name with
    | Some v => if String.eqb v EmptyString then dflt else v
    | None =>
        match inherited name with
        | Some text => text
        | None => dflt
        end
    end.
Proof.
  intros Hcolon Hname Hdflt. unfold loader_content.
  replace ("${" +:+ name +:+ ":" +:+ dflt +:+ "}")
    with ("${" +:+ (name +:+ String ":"%char dflt) +:+ "}").
  - rewrite replace_placeholder.
    + by rewrite (substitute_default _ _ _ Hcolon).
    + rewrite placeholder_text_append. simpl. by rewrite Hname, Hdflt.
  - simpl. f_equal. f_equal.
    clear. induction name as [|c n IH]; simpl; [done | by rewrite IH].
Qed.

Lemma placeholder_binding_or_default_witness :
  loader_content (fun k => if String.eqb k "PORT" then Some "80"
                           else if String.eqb k "HOST" then Some EmptyString
                           else None) "${PORT:8080}" = "80"
  ∧ loader_content (fun k => if String.eqb k "PORT" then Some "80"
                             else if String.eqb k "HOST" then Some EmptyString
                             else None) "${HOST:localhost}" = "localhost"
  ∧ loader_content (fun k => if String.eqb k "PORT" then Some "80"
                             else if String.eqb k "HOST" then Some EmptyString
                             else None) "${valueOf:none}"
    = "function valueOf() { [native code] }".
Proof.
  split; [|split].
  - exact (placeholder_binding_or_default _ "PORT" "8080"
             eq_refl eq_refl eq_refl).
  - exact (placeholder_binding_or_default _ "HOST" "localhost"
             eq_refl eq_refl eq_refl).
  - exact (placeholder_binding_or_default _ "valueOf" "none"
             eq_refl eq_refl eq_refl).
Defined.

End ConfigMore.

(* ===================================================================== *)
(** * Further properties of the classification and of the metadata *)
(* ===================================================================== *)

Module MetadataMore.
Import Js Loader MetadataFacts.

(** The classifier looks at no declared property: an operation is
    classified pubsub-kind exactly when one of the properties outside the
    interfaces is named [pubSubTopic]. *)
Theorem classified_by_undeclared_property (c : OperationConfig.t) :
  isPubSubOperationConfig c
  = existsb (String.eqb "pubSubTopic") (OperationConfig.otherProps c).*1.
Proof.
  unfold isPubSubOperationConfig, OperationConfig.has, OperationConfig.keys.
  rewrite !existsb_app.
  destruct (OperationConfig.description c), (OperationConfig.requestSchema c),
    (OperationConfig.requestSample c), (OperationConfig.requestTypeName c),
    (OperationConfig.responseSchema c), (OperationConfig.responseSample c),
    (OperationConfig.responseTypeName c), (OperationConfig.path c),
    (OperationConfig.method c), (OperationConfig.headers c),
    (OperationConfig.pubsubTopic c); reflexivity.
Qed.

(** An operation that is not classified pubsub-kind has an HTTP method,
    and it is not the empty string: the resolver of an HTTP operation
    never meets the method [null]. *)
Theorem http_method_defined (c : OperationConfig.t) :
  isPubSubOperationConfig c = false →
  ∃ m, httpMethod (getOperationMetadata c) = Some m ∧ m ≠ EmptyString.
Proof.
  intros H. rewrite (metadata_http c H). simpl.
  destruct (OperationConfig.method c) as [m|]; simpl.
  - destruct (String.eqb_spec m EmptyString) as [->|Hm]; simpl.
    + destruct (String.eqb _ "mutation"); by eexists.
    + by exists m.
  - destruct (String.eqb _ "mutation"); by eexists.
Qed.

Lemma http_method_defined_witness :
  ∃ m, httpMethod (getOperationMetadata Demo.createUser) = Some m
       ∧ m ≠ EmptyString.
Proof. exact (http_method_defined Demo.createUser eq_refl). Defined.

Lemma lower_char_idempotent (x : ascii) :
  lower_char (lower_char x) = lower_char x.
Proof. by destruct x as [[] [] [] [] [] [] [] []]. Qed.

Lemma toLowerCase_idempotent (s : string) :
  toLowerCase (toLowerCase s) = toLowerCase s.
Proof.
  induction s as [|x s IH]; simpl; [done|].
  by rewrite lower_char_idempotent, IH.
Qed.

(** The declared type is read without regard to case: an operation
    declared [Query] or [MUTATION] has the metadata of the one declared
    [query] or [mutation]. *)
Theorem metadata_ignores_case (c : OperationConfig.t) (type : string) :
  getOperationMetadata (Planner.with_type type c)
  = getOperationMetadata (Planner.with_type (toLowerCase type) c).
Proof.
  destruct c. unfold getOperationMetadata, isPubSubOperationConfig,
    OperationConfig.has. simpl.
  by rewrite toLowerCase_idempotent.
Qed.

End MetadataMore.

(* ===================================================================== *)
(** * The planner sees every string a resolver interpolates *)
(* ===================================================================== *)

Module PlannerFacts.
Import Js Loader.

(** A property of [{...a, ...b}] comes with its value from [a] or from
    [b]. *)
Lemma obj_set_value {A} (k : string) (v : A) (o : list (string * A))
    (p : string * A) :
  p ∈ obj_set k v o → p.2 = v ∨ p ∈ o.
Proof.
  induction o as [|[k' v'] o IH]; simpl.
  - intros ->%list_elem_of_singleton. by left.
  - destruct (String.eqb k' k).
    + intros [->|H]%elem_of_cons; [by left | right; by right].
    + intros [->|H]%elem_of_cons; [right; by left|].
      destruct (IH H) as [?|?]; [by left | right; by right].
Qed.

Lemma obj_spread_value {A} (a b : list (string * A)) (p : string * A) :
  p ∈ obj_spread a b → p.2 ∈ a.*2 ∨ p.2 ∈ b.*2.
Proof.
  unfold obj_spread. revert a. induction b as [|[k v] b IH]; intros a; simpl.
  - intros H. left. by apply (list_elem_of_fmap_2 snd).
  - intros H. destruct (IH _ H) as [Ha|Hb].
    + apply list_elem_of_fmap in Ha as ([k' v'] & -> & Hin).
      destruct (obj_set_value _ _ _ _ Hin) as [->|Hin'].
      * right. by left.
      * left. by apply (list_elem_of_fmap_2 snd) in Hin'.
    + right. by right.
Qed.

(** Every template the bound resolver interpolates against the request is
    among the strings handed to the argument planner: for a pubsub
    operation the topic; for an HTTP operation the base URL, the path and
    the template of every header of the request. *)
Theorem interpolationStrings_cover (options : Options.t)
    (c : OperationConfig.t) :
  (isPubSubOperationConfig c = true →
   OperationConfig.pubsubTopic c ∈ Planner.interpolationStrings options c)
  ∧ (isPubSubOperationConfig c = false →
     truthy_str (OperationConfig.path c) = true →
     Options.baseUrl options ∈ Planner.interpolationStrings options c
     ∧ OperationConfig.path c ∈ Planner.interpolationStrings options c
     ∧ ∀ header,
         header ∈ obj_spread (default [] (Options.operationHeaders options))
                    (default [] (OperationConfig.headers c)) →
         Some header.2 ∈ Planner.interpolationStrings options c).
Proof.
  unfold Planner.interpolationStrings, Planner.values. split.
  - intros ->. apply elem_of_app. right. by left.
  - intros -> ->. repeat split.
    + apply elem_of_app. left. apply elem_of_app. left.
      apply elem_of_app. right. by left.
    + apply elem_of_app. right. by left.
    + intros header Hin. apply elem_of_app. left.
      destruct (obj_spread_value _ _ _ Hin) as [H|H].
      * apply elem_of_app. left. apply elem_of_app. left.
        by apply (list_elem_of_fmap_2 Some).
      * apply elem_of_app. right. by apply (list_elem_of_fmap_2 Some).
Qed.

Lemma interpolationStrings_cover_witness :
  Some "http://api.test"
    ∈ Planner.interpolationStrings (Demo.jsonOptions [Demo.submitForm])
        Demo.submitForm
  ∧ Some "/forms"
      ∈ Planner.interpolationStrings (Demo.jsonOptions [Demo.submitForm])
          Demo.submitForm
  ∧ Some "events"
      ∈ Planner.interpolationStrings
          (Demo.options [OperationConfig.with_pubsubTopic "events"
                           Demo.onEventCapitalS])
          (OperationConfig.with_pubsubTopic "events" Demo.onEventCapitalS).
Proof.
  destruct (interpolationStrings_cover (Demo.jsonOptions [Demo.submitForm])
              Demo.submitForm) as [_ H].
  destruct (H eq_refl eq_refl) as (H1 & H2 & _).
  split; [exact H1|]. split; [exact H2|].
  exact (proj1 (interpolationStrings_cover
                  (Demo.options [OperationConfig.with_pubsubTopic "events"
                                   Demo.onEventCapitalS])
                  (OperationConfig.with_pubsubTopic "events"
                     Demo.onEventCapitalS)) eq_refl).
Defined.

End PlannerFacts.

(* ===================================================================== *)
(** * Further properties of the request *)
(* ===================================================================== *)

Module RequestMore.
Import Js Loader RequestFacts.

Lemma obj_get_set_same {A} (k : string) (v : A) (o : list (string * A)) :
  obj_get k (obj_set k v o) = Some v.
Proof.
  induction o as [|[k' v'] o IH]; simpl.
  - by rewrite String.eqb_refl.
  - destruct (String.eqb k' k) eqn:E; simpl.
    + by rewrite String.eqb_refl.
    + by rewrite E.
Qed.

Lemma obj_get_set_other {A} (k k' : string) (v : A) (o : list (string * A)) :
  k ≠ k' → obj_get k' (obj_set k v o) = obj_get k' o.
Proof.
  intros Hne. induction o as [|[n w] o IH]; simpl.
  - by destruct (String.eqb_spec k k').
  - destruct (String.eqb_spec n k) as [->|Hn]; simpl.
    + by destruct (String.eqb_spec k k').
    + by rewrite IH.
Qed.

Lemma obj_get_absent {A} (k : string) (o : list (string * A)) :
  k ∉ o.*1 → obj_get k o = None.
Proof.
  induction o as [|[n w] o IH]; simpl; intros H; [done|].
  apply not_elem_of_cons in H as [Hne H].
  destruct (String.eqb_spec n k); [congruence | by apply IH].
Qed.

(** A read of [{...a, ...b}]: the property of [b] when it has one, the
    property of [a] otherwise. *)
Lemma obj_get_spread {A} (k : string) (a b : list (string * A)) :
  NoDup b.*1 →
  obj_get k (obj_spread a b)
  = match obj_get k b with
    | Some v => Some v
    | None => obj_get k a
    end.
Proof.
  unfold obj_spread. revert a.
  induction b as [|[n w] b IH]; intros a Hnd; simpl; [done|].
  rewrite fmap_cons in Hnd. apply NoDup_cons in Hnd as [Hn Hnd].
  simpl in Hn. rewrite (IH _ Hnd).
  destruct (String.eqb_spec n k) as [->|Hne].
  - by rewrite (obj_get_absent _ _ Hn), obj_get_set_same.
  - by rewrite (obj_get_set_other _ _ _ _ Hne).
Qed.

Lemma obj_get_map {A B} (g : A → B) (k : string) (o : list (string * A)) :
  obj_get k (map (fun kv => (kv.1, g kv.2)) o) = g <$> obj_get k o.
Proof.
  induction o as [|[n w] o IH]; simpl; [done|].
  by destruct (String.eqb n k).
Qed.

Section Request.

Context (P : Platform) (options : Options.t) (c : OperationConfig.t).
Context (env root args context info : value).

(** The headers of the request: a header of the operation wins over the
    global header of the same name, a global header is sent when the
    operation has none of that name, and each value is the interpolation
    of its template. *)
Theorem requestHeaders_precedence (name : string) :
  NoDup (default [] (OperationConfig.headers c)).*1 →
  obj_get name
    (requestHeaders P options c (interpolationData env root args context info))
  = (fun template =>
       stringInterpolator_parse P (Some template)
         (interpolationData env root args context info))
    <$> match obj_get name (default [] (OperationConfig.headers c)) with
        | Some template => Some template
        | None => obj_get name (default [] (Options.operationHeaders options))
        end.
Proof.
  intros Hnd. unfold requestHeaders.
  rewrite (obj_get_map
             (fun template =>
                stringInterpolator_parse P (Some template)
                  (interpolationData env root args context info))).
  by rewrite (obj_get_spread _ _ _ Hnd).
Qed.

(** What a request that was built never departs from: the URL is the one
    parsed from the joined base URL and path, the method and the headers
    are those fixed before the input is looked at, a body is set only
    under a method with a body, and the query is changed only under a
    method without one. *)
Theorem prepareRequest_invariants (u' : URL.t) (ri : RequestInit.t) :
  prepareRequest P options c env root args context info = inr (u', ri) →
  ∃ u : URL.t,
    URL_new P (fullPath P options c env root args context info) = Some u
    ∧ URL.href u' = URL.href u
    ∧ RequestInit.method ri = httpMethod (getOperationMetadata c)
    ∧ RequestInit.headers ri
      = requestHeaders P options c
          (interpolationData env root args context info)
    ∧ (RequestInit.body ri ≠ None →
       ∃ m, httpMethod (getOperationMetadata c) = Some m
            ∧ is_in m bodied = true)
    ∧ (URL.searchParams u' ≠ URL.searchParams u →
       ∃ m, httpMethod (getOperationMetadata c) = Some m
            ∧ is_in m bodyless = true).
Proof.
  unfold prepareRequest.
  destruct (URL_new P _) as [u|]; [|intros H; discriminate H].
  destruct (get args "input") as [e|argsInput]; simpl;
    [intros H; discriminate H|].
  destruct (truthy _).
  2:{ intros [= <- <-]. exists u. by repeat split. }
  unfold applyInput, initialRequest.
  destruct (httpMethod (getOperationMetadata c)) as [m|] eqn:Hm;
    [|intros H; discriminate H].
  destruct (is_in m bodyless) eqn:Hless.
  - destruct (newURLSearchParams P _) as [e|news]; simpl;
      [intros H; discriminate H|].
    intros [= <- <-]. exists u. repeat split; simpl; try done.
    intros _. by exists m.
  - destruct (is_in m bodied) eqn:Hbody; [|intros H; discriminate H].
    assert (∀ b, inr (u, RequestInit.with_body b
                        {| RequestInit.method := Some m;
                           RequestInit.headers :=
                             requestHeaders P options c
                               (interpolationData env root args context info);
                           RequestInit.body := None |})
                 = (inr (u', ri) : result (URL.t * RequestInit.t)) →
            ∃ u0 : URL.t,
              Some u = Some u0
              ∧ URL.href u' = URL.href u0
              ∧ RequestInit.method ri = Some m
              ∧ RequestInit.headers ri
                = requestHeaders P options c
                    (interpolationData env root args context info)
              ∧ (RequestInit.body ri ≠ None →
                 ∃ m0, Some m = Some m0 ∧ is_in m0 bodied = true)
              ∧ (URL.searchParams u' ≠ URL.searchParams u0 →
                 ∃ m0, Some m = Some m0 ∧ is_in m0 bodyless = true)) as Hb.
    { intros b [= <- <-]. exists u. repeat split; simpl; try done.
      intros _. by exists m. }
    destruct (findContentType _) as [ct|]; [|apply Hb].
    destruct (startsWith ct _); apply Hb.
Qed.

(** A URL that cannot be parsed fails the resolver with a [TypeError]
    before the input and the method are looked at and before anything is
    fetched. *)
Theorem invalid_url_throws (rt : ComposeOutputType) :
  URL_new P (fullPath P options c env root args context info) = None →
  http_resolve P options c rt env root args context info
  = inl (TypeError "Invalid URL").
Proof.
  intros H. unfold http_resolve, prepareRequest. by rewrite H.
Qed.

End Request.

Lemma requestHeaders_precedence_witness :
  obj_get "Content-Type"
    (requestHeaders Demo.platform (Demo.jsonOptions [Demo.postForm])
       Demo.postForm
       (interpolationData (VObj []) VNull Demo.noArgs VNull VNull))
  = Some "application/x-www-form-urlencoded; charset=utf-8".
Proof.
  exact (requestHeaders_precedence Demo.platform
           (Demo.jsonOptions [Demo.postForm]) Demo.postForm
           (VObj []) VNull Demo.noArgs VNull VNull "Content-Type"
           (NoDup_singleton "Content-Type")).
Defined.

Lemma prepareRequest_invariants_witness :
  ∃ u : URL.t,
    URL_new Demo.platform
      (fullPath Demo.platform (Demo.options [Demo.postForm]) Demo.postForm
         (VObj []) VNull (Demo.argsWith (VObj [("a", VStr "1")])) VNull VNull)
    = Some u
    ∧ URL.href {| URL.href := "http://api.test/forms";
                  URL.searchParams := [] |} = URL.href u.
Proof.
  destruct (prepareRequest_invariants Demo.platform
              (Demo.options [Demo.postForm]) Demo.postForm
              (VObj []) VNull (Demo.argsWith (VObj [("a", VStr "1")]))
              VNull VNull _ _ eq_refl) as (u & Hu & Hh & _).
  exists u. split; [exact Hu | exact Hh].
Defined.

(** Without a truthy input the request goes out as first built, under any
    method: here a [POST] without arguments. *)
Lemma prepareRequest_no_input_witness :
  prepareRequest Demo.platform (Demo.options [Demo.postForm]) Demo.postForm
    (VObj []) VNull Demo.noArgs VNull VNull
  = inr ({| URL.href := "http://api.test/forms"; URL.searchParams := [] |},
         initialRequest Demo.platform (Demo.options [Demo.postForm])
           Demo.postForm (VObj []) VNull Demo.noArgs VNull VNull).
Proof.
  exact (prepareRequest_no_input Demo.platform (Demo.options [Demo.postForm])
           Demo.postForm (VObj []) VNull Demo.noArgs VNull VNull
           _ VUndefined eq_refl eq_refl eq_refl).
Defined.

(** The resolver of an operation under an unparseable URL; the platform is
    the concrete one but for its URL parser. *)
Lemma invalid_url_throws_witness :
  http_resolve
    {| stringInterpolator_parse := stringInterpolator_parse Demo.platform;
       urlJoin := urlJoin Demo.platform;
       URL_new := fun _ => None;
       URLSearchParams_new := URLSearchParams_new Demo.platform;
       ToString := ToString Demo.platform;
       resolveDataByUnionInputType :=
         resolveDataByUnionInputType Demo.platform;
       fetch := fetch Demo.platform;
       JSON_parse := JSON_parse Demo.platform;
       readFileOrUrl := readFileOrUrl Demo.platform;
       toJsonSchema := toJsonSchema Demo.platform;
       dereferenceObject := dereferenceObject Demo.platform;
       healJSONSchema := healJSONSchema Demo.platform;
       referenceJSONSchema := referenceJSONSchema Demo.platform |}
    (Demo.options [Demo.getUser]) Demo.getUser Demo.scalarType
    (VObj []) VNull Demo.noArgs VNull VNull
  = inl (TypeError "Invalid URL").
Proof. by apply invalid_url_throws. Defined.

End RequestMore.

(* ===================================================================== *)
(** * Further properties of the response handling *)
(* ===================================================================== *)

Module ResponseMore.
Import Js Loader ResponseFacts.

Section Response.

Context (P : Platform) (options : Options.t) (c : OperationConfig.t).
Context (rt : ComposeOutputType).

(** A parsed body that is no object: the JSON value [null] fails the
    resolver with a [TypeError]; a boolean, a number, a string or an array
    is returned unchanged as data, whatever the return type. *)
Theorem handleJson_not_an_object (body : value) :
  match body with
  | VUndefined | VNull => ∃ what, handleJson P options c rt body
                                  = inl (TypeError what)
  | VObj _ => True
  | _ => handleJson P options c rt body = inr (Plain body)
  end.
Proof.
  destruct body as [| |b|n|s|l|o]; try done; try (by eexists).
Qed.

(** The fallback: when the [errors] property of the body is absent or
    otherwise falsy and its [_errors] property is a non-empty array, the
    entries of [_errors] are aggregated, unless the return type declares a
    field [errors]. *)
Theorem underscore_errors_aggregated (body e0 : value)
    (items : list value) :
  get body "errors" = inr e0 → truthy e0 = false →
  get body "_errors" = inr (VArr items) → items ≠ [] →
  declaresField rt "errors" = false →
  handleJson P options c rt body
  = inr (AggregateError (map (normalizeError P options) items)
           (qualifiedName c +:+ " failed")).
Proof.
  intros H0 T0 H1 Hne Hd. unfold handleJson. rewrite H0. simpl.
  rewrite T0, H1. destruct items as [|i items]; [done|]. simpl.
  by rewrite Hd.
Qed.

(** A non-empty string under [errors] has a length but no [map]: against
    a return type without a field [errors] the resolver fails with a
    [TypeError] instead of reporting the error. *)
Theorem errors_string_throws (body : value) (s : string) :
  get body "errors" = inr (VStr s) → s ≠ EmptyString →
  declaresField rt "errors" = false →
  handleJson P options c rt body
  = inl (TypeError "errors.map is not a function").
Proof.
  intros He Hs Hd. unfold handleJson. rewrite He. simpl.
  destruct s as [|x s]; [done|]. simpl. by rewrite Hd.
Qed.

(** An [error] that is no object is handed back as it is: with neither
    [errors] nor [_errors], a truthy boolean, number or string under
    [error] is the result of the resolver when the return type declares no
    field [error]; no [Error] object is built for it. *)
Theorem scalar_error_returned (body e0 e1 error : value) :
  get body "errors" = inr e0 → truthy e0 = false →
  get body "_errors" = inr e1 → truthy e1 = false →
  get body "error" = inr error → truthy error = true →
  typeof_object error = false →
  declaresField rt "error" = false →
  handleJson P options c rt body = inr (Plain error).
Proof.
  intros H0 T0 H1 T1 He Te Ho Hd.
  rewrite (handleJson_no_errors P options c rt body e0 e1 H0 T0 H1 T1).
  unfold singularError. rewrite He. simpl. rewrite Te, Hd. simpl.
  unfold normalizeError. by rewrite Ho.
Qed.

(** The handling of a body whose [errors] property is falsy and whose
    [_errors] property is an array. *)
Lemma handleJson_underscore_array (body e0 : value) (items : list value) :
  get body "errors" = inr e0 → truthy e0 = false →
  get body "_errors" = inr (VArr items) →
  handleJson P options c rt body
  = if negb (bool_decide (items = [])) && negb (declaresField rt "errors")
    then inr (AggregateError (map (normalizeError P options) items)
                (qualifiedName c +:+ " failed"))
    else singularError P options rt body.
Proof.
  intros H0 T0 H1. unfold handleJson. rewrite H0. simpl. rewrite T0, H1.
  destruct items as [|i items]; simpl; [done|].
  by destruct (declaresField rt "errors").
Qed.

Lemma singularError_object (props : list (string * value)) :
  ∃ r, singularError P options rt (VObj props) = inr r.
Proof.
  unfold singularError. simpl. destruct (truthy _ && _); by eexists.
Qed.

(** The resolver never throws on a body that is an object whose [errors]
    and [_errors] properties are arrays or falsy. *)
Theorem handleJson_object_returns (props : list (string * value)) :
  (∀ k v, k = "errors" ∨ k = "_errors" →
          obj_get k props = Some v →
          truthy v = false ∨ ∃ items, v = VArr items) →
  ∃ r, handleJson P options c rt (VObj props) = inr r.
Proof.
  intros Hwf.
  assert (∀ k, k = "errors" ∨ k = "_errors" →
            truthy (default VUndefined (obj_get k props)) = false
            ∨ ∃ items, default VUndefined (obj_get k props) = VArr items)
    as Hshape.
  { intros k Hk. destruct (obj_get k props) as [v|] eqn:E; [|by left].
    exact (Hwf k v Hk E). }
  assert (∀ items (b : bool),
            ∃ r, (if b
                  then inr (AggregateError
                              (map (normalizeError P options) items)
                              (qualifiedName c +:+ " failed"))
                  else singularError P options rt (VObj props)) = inr r)
    as Hres.
  { intros items [|]; [by eexists | apply singularError_object]. }
  destruct (Hshape "errors" (or_introl eq_refl)) as [T0 | [items E0]].
  - destruct (Hshape "_errors" (or_intror eq_refl)) as [T1 | [items E1]].
    + rewrite (handleJson_no_errors P options c rt (VObj props) _ _
                 eq_refl T0 eq_refl T1).
      apply singularError_object.
    + rewrite (handleJson_underscore_array (VObj props) _ items
                 eq_refl T0 (f_equal inr E1)).
      apply Hres.
  - rewrite (handleJson_errors_array P options c rt (VObj props) items
               (f_equal inr E0)).
    apply Hres.
Qed.

(** The plain case: when the response text parses to an object without
    the properties [errors], [_errors] and [error], the resolver returns
    that object unchanged, whatever the return type. *)
Theorem http_resolve_returns_body (env root args context info : value)
    (request : URL.t * RequestInit.t) (responseText : string)
    (props : list (string * value)) :
  prepareRequest P options c env root args context info = inr request →
  fetch P request.1 request.2 = inr responseText →
  JSON_parse P responseText = Some (VObj props) →
  obj_get "errors" props = None →
  obj_get "_errors" props = None →
  obj_get "error" props = None →
  http_resolve P options c rt env root args context info
  = inr (Plain (VObj props)).
Proof.
  intros Hp Hf Hj H0 H1 H2.
  rewrite (http_resolve_parsed P options c rt env root args context info
             request responseText (VObj props) Hp Hf Hj).
  rewrite (handleJson_no_errors P options c rt (VObj props)
             VUndefined VUndefined).
  - unfold singularError. simpl. by rewrite H2.
  - simpl. by rewrite H0.
  - done.
  - simpl. by rewrite H1.
  - done.
Qed.

End Response.

(** The plain case at a server that answers with the empty object. *)
Lemma http_resolve_returns_body_witness :
  http_resolve
    {| stringInterpolator_parse := stringInterpolator_parse Demo.platform;
       urlJoin := urlJoin Demo.platform;
       URL_new := URL_new Demo.platform;
       URLSearchParams_new := URLSearchParams_new Demo.platform;
       ToString := ToString Demo.platform;
       resolveDataByUnionInputType :=
         resolveDataByUnionInputType Demo.platform;
       fetch := fun _ _ => inr "{}";
       JSON_parse := fun text =>
         if String.eqb text "{}" then Some (VObj []) else None;
       readFileOrUrl := readFileOrUrl Demo.platform;
       toJsonSchema := toJsonSchema Demo.platform;
       dereferenceObject := dereferenceObject Demo.platform;
       healJSONSchema := healJSONSchema Demo.platform;
       referenceJSONSchema := referenceJSONSchema Demo.platform |}
    (Demo.options [Demo.getUser]) Demo.getUser (Demo.objectType ["id"])
    (VObj []) VNull Demo.noArgs VNull VNull
  = inr (Plain (VObj [])).
Proof.
  eapply http_resolve_returns_body with (responseText := "{}");
    reflexivity.
Defined.

Lemma underscore_errors_aggregated_witness :
  handleJson Demo.platform (Demo.options [Demo.getUser]) Demo.getUser
    (Demo.objectType ["id"])
    (VObj [("errors", VNull);
           ("_errors", VArr [VObj [("message", VStr "x")]])])
  = inr (AggregateError [ErrorObj "message" (VObj [("message", VStr "x")])]
           "Query.getUser failed").
Proof.
  apply (underscore_errors_aggregated Demo.platform
           (Demo.options [Demo.getUser]) Demo.getUser (Demo.objectType ["id"])
           _ VNull [VObj [("message", VStr "x")]]);
    [reflexivity | reflexivity | reflexivity | discriminate | reflexivity].
Defined.

Lemma errors_string_throws_witness :
  handleJson Demo.platform (Demo.options [Demo.getUser]) Demo.getUser
    (Demo.objectType ["id"]) (VObj [("errors", VStr "boom")])
  = inl (TypeError "errors.map is not a function").
Proof.
  apply (errors_string_throws Demo.platform (Demo.options [Demo.getUser])
           Demo.getUser (Demo.objectType ["id"]) _ "boom");
    [reflexivity | discriminate | reflexivity].
Defined.

Lemma scalar_error_returned_witness :
  handleJson Demo.platform (Demo.options [Demo.getUser]) Demo.getUser
    (Demo.objectType ["id"]) (VObj [("error", VStr "boom")])
  = inr (Plain (VStr "boom")).
Proof.
  exact (scalar_error_returned Demo.platform (Demo.options [Demo.getUser])
           Demo.getUser (Demo.objectType ["id"])
           (VObj [("error", VStr "boom")]) VUndefined VUndefined (VStr "boom")
           eq_refl eq_refl eq_refl eq_refl eq_refl eq_refl eq_refl eq_refl).
Defined.

Lemma handleJson_object_returns_witness :
  ∃ r, handleJson Demo.platform (Demo.options [Demo.getUser]) Demo.getUser
         (Demo.objectType ["id"])
         (VObj [("id", VNum 1); ("errors", VArr [])]) = inr r.
Proof.
  apply handleJson_object_returns.
  intros k v [-> | ->] [= <-]. right. by eexists.
Defined.

End ResponseMore.

(* ===================================================================== *)
(** * Further properties of the schema synthesizer *)
(* ===================================================================== *)

Module SynthesisMore.
Import Js Loader StringFacts SynthesisFacts RequestMore.

#[local] Set Warnings "-clear-no-such-hyp".

Section Sides.

Context (P : Platform).

(** What a loop body that does not throw leaves behind, with the two
    sides it was built from. *)
Lemma addOperation_shape (s s' : gmap string RootDefinition)
    (c : OperationConfig.t) (t : list event) :
  addOperation P s c = (t, inr s') →
  ∃ (response : value) (request : option value),
    (responseSide P c).2 = inr response
    ∧ (requestSide P c).2 = inr request
    ∧ s' = (match request with
            | Some schema =>
                setField (operationType (getOperationMetadata c) +:+ "Input")
                  (RootTypeName_string (rootTypeName (getOperationMetadata c))
                   +:+ "Input")
                  (fieldName (getOperationMetadata c)) schema
            | None => fun x => x
            end)
             (touch (operationType (getOperationMetadata c) +:+ "Input")
                (RootTypeName_string (rootTypeName (getOperationMetadata c))
                 +:+ "Input")
                (setField (operationType (getOperationMetadata c))
                   (RootTypeName_string
                      (rootTypeName (getOperationMetadata c)))
                   (fieldName (getOperationMetadata c)) response
                   (touch (operationType (getOperationMetadata c))
                      (RootTypeName_string
                         (rootTypeName (getOperationMetadata c))) s))).
Proof.
  unfold addOperation, mbind, Eff_bind.
  destruct (responseSide P c) as [t1 [e1|response]]; simpl;
    [intros H; discriminate H|].
  destruct (requestSide P c) as [t2 [e2|request]]; simpl;
    [intros H; discriminate H|].
  destruct request as [schema|]; simpl; intros [= <- <-].
  - by exists response, (Some schema).
  - by exists response, None.
Qed.

(** An operation with neither a response schema nor a response sample
    gets the bare placeholder [{ type: 'object', title: responseTypeName }]
    without a call of the file reader or of sample inference, and that is
    the property stored for its field when the operation has been added. *)
Theorem response_placeholder (c : OperationConfig.t) :
  truthy (read (OperationConfig.responseSchema c)) = false →
  truthy (read (OperationConfig.responseSample c)) = false →
  responseSide P c
  = ([], inr (VObj [("type", VStr "object");
                    ("title", optStr (OperationConfig.responseTypeName c))]))
  ∧ ∀ s s' t,
      addOperation P s c = (t, inr s') →
      fieldSchema (operationType (getOperationMetadata c))
        (fieldName (getOperationMetadata c)) s'
      = Some (VObj [("type", VStr "object");
                    ("title", optStr (OperationConfig.responseTypeName c))]).
Proof.
  intros Hs Hp.
  assert (responseSide P c
          = ([], inr (VObj [("type", VStr "object");
                            ("title",
                             optStr (OperationConfig.responseTypeName c))])))
    as Hside by (unfold responseSide; by rewrite Hs, Hp).
  split; [done|]. intros s s' t H.
  apply addOperation_shape in H as (response & request & Hr & _ & ->).
  rewrite Hside in Hr. simpl in Hr. injection Hr as <-.
  assert (operationType (getOperationMetadata c) +:+ "Input"
          ≠ operationType (getOperationMetadata c)) as Hne
    by apply input_root_distinct.
  destruct request as [schema|].
  - rewrite fieldSchema_setField_name by done.
    rewrite fieldSchema_touch. apply fieldSchema_setField.
  - rewrite fieldSchema_touch. apply fieldSchema_setField.
Qed.

(** The request side: an operation with a request schema stores
    [{ $ref: requestSchema }] for its field under the input root; an
    operation with neither a request schema nor a request sample stores
    nothing for its field there, yet the input root exists afterwards. *)
Theorem request_side_stored (c : OperationConfig.t)
    (s s' : gmap string RootDefinition) (t : list event) :
  addOperation P s c = (t, inr s') →
  (truthy (read (OperationConfig.requestSchema c)) = true →
   fieldSchema (operationType (getOperationMetadata c) +:+ "Input")
     (fieldName (getOperationMetadata c)) s'
   = Some (VObj [("$ref", read (OperationConfig.requestSchema c))]))
  ∧ (truthy (read (OperationConfig.requestSchema c)) = false →
     truthy (read (OperationConfig.requestSample c)) = false →
     fieldSchema (operationType (getOperationMetadata c) +:+ "Input")
       (fieldName (getOperationMetadata c)) s'
     = fieldSchema (operationType (getOperationMetadata c) +:+ "Input")
         (fieldName (getOperationMetadata c)) s
     ∧ is_Some (s' !! (operationType (getOperationMetadata c) +:+ "Input"))).
Proof.
  intros H.
  apply addOperation_shape in H as (response & request & _ & Hq & ->).
  assert (operationType (getOperationMetadata c)
          ≠ operationType (getOperationMetadata c) +:+ "Input") as Hne.
  { intros E. by apply (input_root_distinct c c). }
  split.
  - intros Hs. unfold requestSide in Hq. rewrite Hs in Hq. simpl in Hq.
    injection Hq as <-. apply fieldSchema_setField.
  - intros Hs Hp. unfold requestSide in Hq. rewrite Hs, Hp in Hq.
    simpl in Hq. injection Hq as <-. split.
    + rewrite fieldSchema_touch, fieldSchema_setField_name by done.
      by rewrite fieldSchema_touch.
    + unfold touch at 1. rewrite lookup_insert_eq. by eexists.
Qed.

(** The schema inferred from a sample: the reader and the inference are
    each called once, in that order; the title of the inferred schema is
    replaced by the configured type name, also when there is none, and its
    other properties are kept. *)
Theorem response_inferred (c : OperationConfig.t) (content : value) :
  truthy (read (OperationConfig.responseSchema c)) = false →
  truthy (read (OperationConfig.responseSample c)) = true →
  readFileOrUrl P (read (OperationConfig.responseSample c)) = inr content →
  ∃ generated,
    responseSide P c
    = ([ReadFileOrUrl (read (OperationConfig.responseSample c));
        ToJsonSchema content],
       inr (VObj generated))
    ∧ obj_get "title" generated
      = Some (optStr (OperationConfig.responseTypeName c))
    ∧ ∀ k, k ≠ "title" →
           obj_get k generated = obj_get k (toJsonSchema P content).
Proof.
  intros Hs Hp Hr. eexists. split; [|split].
  - unfold responseSide, readSample, generateSchema.
    rewrite Hs, Hp, Hr. reflexivity.
  - apply obj_get_set_same.
  - intros k Hk. apply obj_get_set_other. congruence.
Qed.

Lemma dom_touch (name rootTitle : string) (s : gmap string RootDefinition) :
  dom (touch name rootTitle s) = {[name]} ∪ dom s.
Proof. unfold touch. apply dom_insert_L. Qed.

Lemma dom_setField (name rootTitle f : string) (v : value)
    (s : gmap string RootDefinition) :
  dom (setField name rootTitle f v s) = {[name]} ∪ dom s.
Proof. unfold setField. apply dom_insert_L. Qed.

(** The roots of the composite schema: each operation that is added
    contributes the root named by its operation type and the input root
    of that type, and nothing else; so a list of operations leaves exactly
    the roots of its operations. *)
Theorem composite_roots (operations : list OperationConfig.t)
    (s s' : gmap string RootDefinition) (t : list event) :
  addOperations P s operations = (t, inr s') →
  dom s' = dom s ∪ ⋃ (Planner.rootNames <$> operations).
Proof.
  revert s t. induction operations as [|c ops IH]; intros s t; simpl.
  { intros [= <- <-]. set_solver. }
  unfold mbind, Eff_bind.
  destruct (addOperation P s c) as [t0 [e|s0]] eqn:H0; simpl;
    [intros H; discriminate H|].
  destruct (addOperations P s0 ops) as [t1 r1] eqn:H1. simpl.
  intros [= <- ->]. rewrite (IH s0 t1 H1).
  apply addOperation_shape in H0 as (response & request & _ & _ & ->).
  unfold Planner.rootNames.
  destruct request as [schema|];
    rewrite ?dom_setField, ?dom_touch, ?dom_setField, ?dom_touch; set_solver.
Qed.

Lemma touch_keeps (name name' rootTitle : string)
    (s : gmap string RootDefinition) (d : RootDefinition) :
  s !! name = Some d → touch name' rootTitle s !! name = Some d.
Proof.
  intros H. unfold touch, rootDefinition.
  destruct (decide (name' = name)) as [->|Hne].
  - by rewrite lookup_insert_eq, H.
  - by rewrite lookup_insert_ne.
Qed.

Lemma setField_keeps (name name' rootTitle f : string) (v : value)
    (s : gmap string RootDefinition) (d : RootDefinition) :
  s !! name = Some d →
  ∃ d', setField name' rootTitle f v s !! name = Some d'
        ∧ title d' = title d
        ∧ dom (properties d) ⊆ dom (properties d').
Proof.
  intros H. unfold setField, rootDefinition.
  destruct (decide (name' = name)) as [->|Hne].
  - rewrite lookup_insert_eq, H. eexists. split; [done|]. simpl.
    split; [done|]. rewrite dom_insert_L. set_solver.
  - rewrite lookup_insert_ne by done. by exists d.
Qed.

(** Synthesis only adds: a root that exists keeps its title, whatever
    the root type of the operations added later, and keeps a property for
    every field it had. *)
Theorem composite_grows (operations : list OperationConfig.t)
    (s s' : gmap string RootDefinition) (t : list event)
    (name : string) (d : RootDefinition) :
  addOperations P s operations = (t, inr s') →
  s !! name = Some d →
  ∃ d', s' !! name = Some d'
        ∧ title d' = title d
        ∧ dom (properties d) ⊆ dom (properties d').
Proof.
  revert s t d. induction operations as [|c ops IH]; intros s t d; simpl.
  { intros [= <- <-] H. by exists d. }
  unfold mbind, Eff_bind.
  destruct (addOperation P s c) as [t0 [e|s0]] eqn:H0; simpl;
    [intros H; discriminate H|].
  destruct (addOperations P s0 ops) as [t1 r1] eqn:H1. simpl.
  intros [= <- ->] Hd.
  assert (∃ d0, s0 !! name = Some d0 ∧ title d0 = title d
                ∧ dom (properties d) ⊆ dom (properties d0))
    as (d0 & Hd0 & Ht0 & Hp0).
  { apply addOperation_shape in H0 as (response & request & _ & _ & ->).
    pose proof (touch_keeps name (operationType (getOperationMetadata c))
                  (RootTypeName_string (rootTypeName (getOperationMetadata c)))
                  s d Hd) as H.
    destruct (setField_keeps name (operationType (getOperationMetadata c))
                (RootTypeName_string (rootTypeName (getOperationMetadata c)))
                (fieldName (getOperationMetadata c)) response _ d H)
      as (d1 & H1' & Ht1 & Hp1).
    pose proof (touch_keeps name
                  (operationType (getOperationMetadata c) +:+ "Input")
                  (RootTypeName_string (rootTypeName (getOperationMetadata c))
                   +:+ "Input") _ d1 H1') as H2.
    destruct request as [schema|].
    - destruct (setField_keeps name
                  (operationType (getOperationMetadata c) +:+ "Input")
                  (RootTypeName_string (rootTypeName (getOperationMetadata c))
                   +:+ "Input")
                  (fieldName (getOperationMetadata c)) schema _ d1 H2)
        as (d2 & H2' & Ht2 & Hp2).
      exists d2. split; [done|]. split; [congruence | set_solver].
    - exists d1. by split. }
  destruct (IH s0 t1 d0 H1 Hd0) as (d' & Hd' & Ht' & Hp').
  exists d'. split; [done|]. split; [congruence | set_solver].
Qed.

(** When every consulted sample can be read, the loop does not throw and
    the pipeline runs, also when no operation refers to a schema: its
    stages are called in the order dereference, heal, re-reference, after
    all reads, and the first stage that fails ends synthesis with its
    failure. *)
Theorem pipeline_runs (options : Options.t) :
  (∀ c m, c ∈ Options.operations options →
          ¬ responseSampleFails P c m ∧ ¬ requestSampleFails P c m) →
  ∃ t s,
    addOperations P ∅ (Options.operations options) = (t, inr s)
    ∧ quiet t
    ∧ buildFinalJSONSchema P options
      = match dereferenceObject P s with
        | inl e => (t ++ [DereferenceObject], inl e)
        | inr dereferenced =>
            match healJSONSchema P dereferenced with
            | inl e => (t ++ [DereferenceObject; HealJSONSchema], inl e)
            | inr healed =>
                (t ++ [DereferenceObject; HealJSONSchema; ReferenceJSONSchema],
                 referenceJSONSchema P healed)
            end
        end.
Proof.
  intros Hok.
  assert (∀ ops s0,
            (∀ c m, c ∈ ops →
                    ¬ responseSampleFails P c m ∧ ¬ requestSampleFails P c m) →
            ∃ t s, addOperations P s0 ops = (t, inr s) ∧ quiet t) as Hloop.
  { induction ops as [|c ops IH]; intros s0 H; simpl.
    { exists [], s0. split; [done | constructor]. }
    destruct (addOperation_result P s0 c)
      as [(t & s1 & Ha & Q & _) | (t & message & _ & _ & m & E)].
    - destruct (IH s1) as (t' & s' & Ha' & Q').
      { intros c' m' Hin. apply H. by right. }
      exists (t ++ t'), s'. rewrite (bind_inr _ _ _ _ Ha), Ha'. simpl.
      split; [done | by apply Forall_app].
    - exfalso. destruct (H c m (list_elem_of_here _ _)) as [N1 N2].
      destruct E as [[F _] | [F _]]; [by apply N1 | by apply N2]. }
  destruct (Hloop _ ∅ Hok) as (t & s & Ha & Q).
  exists t, s. split; [done|]. split; [done|].
  unfold buildFinalJSONSchema. rewrite (bind_inr _ _ _ _ Ha).
  unfold pipeline, mbind, Eff_bind, emit, lift. simpl.
  destruct (dereferenceObject P s) as [e|d]; simpl; [done|].
  destruct (healJSONSchema P d) as [e|h]; simpl; done.
Qed.

End Sides.

Lemma response_placeholder_witness :
  responseSide Demo.platform Demo.getUser
  = ([], inr (VObj [("type", VStr "object"); ("title", VUndefined)])).
Proof.
  exact (proj1 (response_placeholder Demo.platform Demo.getUser
                  eq_refl eq_refl)).
Defined.

Lemma request_side_stored_witness :
  ∃ t s',
    addOperation Demo.platform ∅ Demo.addOrder = (t, inr s')
    ∧ fieldSchema "mutationInput" "addOrder" s'
      = Some (VObj [("$ref", VStr "./order.input.json")]).
Proof.
  destruct (addOperation Demo.platform ∅ Demo.addOrder) as [t [e|s']] eqn:H.
  { vm_compute in H. discriminate H. }
  exists t, s'. split; [reflexivity|].
  exact (proj1 (request_side_stored Demo.platform Demo.addOrder ∅ s' t H)
           eq_refl).
Defined.

Lemma response_inferred_witness :
  ∃ generated,
    responseSide Demo.platform Demo.getProfile
    = ([ReadFileOrUrl (VStr "./user.json");
        ToJsonSchema (VObj [("id", VNum 1); ("name", VStr "a")])],
       inr (VObj generated))
    ∧ obj_get "title" generated = Some VUndefined.
Proof.
  destruct (response_inferred Demo.platform Demo.getProfile
              (VObj [("id", VNum 1); ("name", VStr "a")])
              eq_refl eq_refl eq_refl) as (generated & H1 & H2 & _).
  exists generated. split; [exact H1 | exact H2].
Defined.

Lemma composite_roots_witness :
  ∃ t s',
    addOperations Demo.platform ∅ [Demo.getUser] = (t, inr s')
    ∧ dom s' = ∅ ∪ ⋃ (Planner.rootNames <$> [Demo.getUser]).
Proof.
  destruct (addOperations Demo.platform ∅ [Demo.getUser])
    as [t [e|s']] eqn:H.
  { vm_compute in H. discriminate H. }
  exists t, s'. split; [reflexivity|].
  exact (composite_roots Demo.platform [Demo.getUser] ∅ s' t H).
Defined.

Lemma composite_grows_witness :
  ∃ t s' d',
    addOperations Demo.platform
      {[ "query" := {| title := "Query"; properties := ∅ |} ]}
      [Demo.httpSubscription; Demo.getUser] = (t, inr s')
    ∧ s' !! "query" = Some d' ∧ title d' = "Query".
Proof.
  destruct (addOperations Demo.platform
              {[ "query" := {| title := "Query"; properties := ∅ |} ]}
              [Demo.httpSubscription; Demo.getUser])
    as [t [e|s']] eqn:H.
  { vm_compute in H. discriminate H. }
  destruct (composite_grows Demo.platform
              [Demo.httpSubscription; Demo.getUser] _ s' t "query"
              {| title := "Query"; properties := ∅ |} H
              (lookup_singleton_eq _ _)) as (d' & Hd & Ht & _).
  exists t, s', d'. split; [reflexivity|]. split; [exact Hd | exact Ht].
Defined.

Lemma pipeline_runs_witness :
  ∃ t s,
    addOperations Demo.platform ∅ [Demo.getProfile; Demo.getOrder]
    = (t, inr s)
    ∧ quiet t.
Proof.
  destruct (pipeline_runs Demo.platform
              (Demo.options [Demo.getProfile; Demo.getOrder]))
    as (t & s & Ha & Q & _).
  - intros c m Hin.
    apply elem_of_cons in Hin as [-> | Hin].
    { split; [intros (_ & _ & H) | intros (_ & H & _)]; discriminate H. }
    apply list_elem_of_singleton in Hin as ->.
    split; [intros (H & _) | intros (_ & H & _)]; discriminate H.
  - exists t, s. split; [exact Ha | exact Q].
Defined.

End SynthesisMore.

(* ===================================================================== *)
(** * The mesh handler *)
(* ===================================================================== *)

Module HandlerFacts.
Import Js Loader.

(** The options that [getMeshSource] builds carry no pubsub subsystem,
    whatever the handler was given: in a schema built by the handler,
    [subscribe] of every operation throws a [TypeError], for every
    configuration and every invocation. *)
Theorem handler_subscribe_throws (P : Platform) (config : Handler.Config)
    (baseDir : string) (handlerPubsub : Handler.MeshPubSub)
    (c : OperationConfig.t) (env root args context info : value) :
  ∃ what,
    Handler.subscribe P
      (Handler.getMeshSourceOptions config baseDir handlerPubsub)
      c env root args context info
    = inl (TypeError what).
Proof. by eexists. Qed.

End HandlerFacts.
